(** * Electricity usage analyser: the computations of [app.py]

    A shallow embedding of the parsing, interpolation, aggregation and
    costing code of the dashboard script, and the properties its
    specification states about them.

    Conventions.
    - A pandas [Timestamp] at midnight is its day number (days since
      1970-01-01) in [Z]; [(end - start).days] is the difference and
      [start + Timedelta(days=k)] the sum.
    - A Python [float] is a value of an arithmetic [F] (class [Arith]).
      The arithmetic the script runs on is IEEE binary64, instance
      [binary64] over Rocq's primitive floats.  Exact rational
      arithmetic, instance [exact] over [Qc], is the second instance; the
      laws that hold there and fail in binary64 are the class
      [ExactArith].
    - An exception is a [Raise] in the [result] monad.
    - A data frame is the list of its rows, in row order. *)

From Stdlib Require Import Floats.
From Stdlib Require Import ZArith QArith Qcanon Ascii String Lia.
From stdpp Require Import base decidable option list list_numbers sorting strings gmap.

Close Scope Q_scope.
Close Scope Qc_scope.
Local Open Scope Z_scope.

(* ================================================================== *)
(** * Exceptions *)

Inductive exn : Type :=
  | ValueError          (* float(), strptime, NaT.strftime, OutOfBoundsDatetime *)
  | ZeroDivisionError   (* x / 0 *)
  | IndexError          (* .iloc[0] of an empty frame *)
  | AttributeError      (* .str on a column that does not hold text *)
  | TypeError.          (* range(nan) *)

Inductive result (A : Type) : Type :=
  | Ok (a : A)
  | Raise (e : exn).
Arguments Ok {A} a.
Arguments Raise {A} e.

Global Instance result_ret : MRet result := λ A a, Ok a.
Global Instance result_bind : MBind result := λ A B k m,
  match m with
  | Ok a => k a
  | Raise e => Raise e
  end.
Global Instance result_fmap : FMap result := λ A B f m,
  match m with
  | Ok a => Ok (f a)
  | Raise e => Raise e
  end.

Definition raises {A} (m : result A) : Prop :=
  match m with
  | Ok _ => False
  | Raise _ => True
  end.

Global Instance exn_eq_dec : EqDecision exn.
Proof. solve_decision. Defined.

(* ================================================================== *)
(** * Arithmetic *)

(** The operations the script and pandas apply to meter values: [+],
    [-], [*], [/], the conversion of a Python [int] operand, and the
    test [x != x] by which pandas recognises a NaN. *)
Class Arith (F : Type) : Type := {
  fzero : F;
  fadd : F → F → F;
  fsub : F → F → F;
  fmul : F → F → F;
  fdiv : F → F → F;
  of_int : Z → F;
  fis_nan : F → bool;
}.

(** [int -> float], correctly rounded ([binary_normalize] rounds to
    nearest, ties to even, and overflows to infinity). *)
Definition float_of_Z (n : Z) : float :=
  SF2Prim (binary_normalize prec emax n 0 false).

Global Instance binary64 : Arith float := {|
  fzero := PrimFloat.zero;
  fadd := PrimFloat.add;
  fsub := PrimFloat.sub;
  fmul := PrimFloat.mul;
  fdiv := PrimFloat.div;
  of_int := float_of_Z;
  fis_nan := λ x, negb (PrimFloat.eqb x x);
|}.

Global Instance exact : Arith Qc := {|
  fzero := Q2Qc 0;
  fadd := Qcplus;
  fsub := Qcminus;
  fmul := Qcmult;
  fdiv := Qcdiv;
  of_int := λ n, Q2Qc (inject_Z n);
  fis_nan := λ _, false;
|}.

(** The laws of exact arithmetic that the conservation and aggregation
    properties rest on; there is no NaN in exact arithmetic. *)
Class ExactArith (F : Type) `{Arith F} : Prop := {
  fadd_assoc : ∀ x y z : F, fadd x (fadd y z) = fadd (fadd x y) z;
  fadd_comm : ∀ x y : F, fadd x y = fadd y x;
  fadd_zero_l : ∀ x : F, fadd fzero x = x;
  of_int_0 : of_int 0 = fzero;
  of_int_succ : ∀ n : Z, of_int (n + 1) = fadd (of_int n) (of_int 1);
  fmul_zero_l : ∀ x : F, fmul fzero x = fzero;
  fmul_one_l : ∀ x : F, fmul (of_int 1) x = x;
  fmul_add_distr_r : ∀ x y z : F, fmul (fadd x y) z = fadd (fmul x z) (fmul y z);
  fmul_div_cancel : ∀ (x : F) (n : Z), n ≠ 0 → fmul (of_int n) (fdiv x (of_int n)) = x;
  fsub_add_cancel_l : ∀ x y : F, fsub (fadd x y) x = y;
  fsub_diag : ∀ x : F, fsub x x = fzero;
  fis_nan_exact : ∀ x : F, fis_nan x = false;
}.

(** Python's [x / n] for a float [x] and an int [n]. *)
Definition true_div `{Arith F} (x : F) (n : Z) : result F :=
  if decide (n = 0) then Raise ZeroDivisionError else Ok (fdiv x (of_int n)).

(** [.sum()]: accumulation from 0, in row order. *)
Definition fsum `{Arith F} (l : list F) : F := foldl fadd fzero l.

(** The same sum with Kahan compensation. *)
Definition kahan_step `{Arith F} (sc : F * F) (x : F) : F * F :=
  let y := fsub x sc.2 in
  let t := fadd sc.1 y in
  (t, fsub (fsub t sc.1) y).
Definition kahan_sum `{Arith F} (l : list F) : F :=
  (foldl kahan_step (fzero, fzero) l).1.

(** [groupby(...).sum()] of one group, as pandas computes it
    ([group_sum], with [min_count=0]): the values are added in row
    order, a NaN value is skipped, the running sum carries a Kahan
    compensation, and a compensation that is itself a NaN (an infinite
    sum) is reset to 0. *)
Definition group_sum_step `{Arith F} (sc : F * F) (val : F) : F * F :=
  if fis_nan val then sc
  else
    let y := fsub val sc.2 in
    let t := fadd sc.1 y in
    let compensation := fsub (fsub t sc.1) y in
    (t, if fis_nan compensation then fzero else compensation).
Definition group_sum `{Arith F} (l : list F) : F :=
  (foldl group_sum_step (fzero, fzero) l).1.

(** [Series.sum()] ([skipna=True]): the sum of the values that are not
    NaN.  (The series the script sums hold one value at most, so the
    order in which numpy adds the values of a longer one plays no
    part.) *)
Definition series_sum `{Arith F} (l : list F) : F :=
  fsum (filter (λ x, fis_nan x = false) l).

(* ================================================================== *)
(** * Calendar *)

(** Day number of the proleptic Gregorian date [y]-[m]-[d]. *)
Definition days_from_civil (y m d : Z) : Z :=
  let y' := if decide (m ≤ 2) then y - 1 else y in
  let era := y' / 400 in
  let yoe := y' - era * 400 in
  let mp := if decide (m ≤ 2) then m + 9 else m - 3 in
  let doy := (153 * mp + 2) / 5 + d - 1 in
  let doe := yoe * 365 + yoe / 4 - yoe / 100 + doy in
  era * 146097 + doe - 719468.

(** Year, month and day of a day number. *)
Definition civil_from_days (z : Z) : Z * Z * Z :=
  let z' := z + 719468 in
  let era := z' / 146097 in
  let doe := z' - era * 146097 in
  let yoe := (doe - doe / 1460 + doe / 36524 - doe / 146096) / 365 in
  let doy := doe - (365 * yoe + yoe / 4 - yoe / 100) in
  let mp := (5 * doy + 2) / 153 in
  let d := doy - (153 * mp + 2) / 5 + 1 in
  let m := if decide (mp < 10) then mp + 3 else mp - 9 in
  let y := yoe + era * 400 in
  (if decide (m ≤ 2) then y + 1 else y, m, d).

Definition is_leap (y : Z) : bool :=
  bool_decide (y mod 4 = 0) && (bool_decide (y mod 100 ≠ 0) || bool_decide (y mod 400 = 0)).

Definition days_in_month (y m : Z) : Z :=
  if decide (m = 2) then (if is_leap y then 29 else 28)
  else if decide (m = 4 ∨ m = 6 ∨ m = 9 ∨ m = 11) then 30
  else 31.

(** [dt.to_period('M')]: the year-month key of a date.  Its string form
    ['YYYY-MM'] orders as the pair does. *)
Definition year_month (date : Z) : Z * Z :=
  let '(y, m, _) := civil_from_days date in (y, m).

(** The first day of the month of a ['YYYY-MM'] key. *)
Definition month_start (ym : Z * Z) : Z := days_from_civil ym.1 ym.2 1.

(** The days a nanosecond [Timestamp] at midnight can hold:
    [Timestamp.min] is 1677-09-21 00:12:43.145224193 and
    [Timestamp.max] is 2262-04-11 23:47:16.854775807. *)
Definition timestamp_min : Z := days_from_civil 1677 9 22.
Definition timestamp_max : Z := days_from_civil 2262 4 11.

(** [NaT], the missing date.  It is kept in a date column as a day
    number no [Timestamp] has, greater than all of them:
    [sort_values] puts the rows without a date last. *)
Definition NaT : Z := timestamp_max + 1.

(** [pd.to_datetime] of a ['YYYY-MM'] key (line 123): the [Timestamp]
    of the first day of the month, or [OutOfBoundsDatetime] (a
    [ValueError]) when that day is not within the bounds; the months
    of the days from 1677-09-22 to 1677-09-30 start too early. *)
Definition sort_date (ym : Z * Z) : result Z :=
  if decide (timestamp_min ≤ month_start ym ≤ timestamp_max) then Ok (month_start ym)
  else Raise ValueError.

(* ================================================================== *)
(** * Data frames *)

Record Reading (F : Type) : Type := mkReading {
  r_date : Z;          (* 'Date' *)
  r_type : string;     (* 'Type' *)
  r_value : F;         (* 'Reading' *)
  r_source : string;   (* 'Reading Source' *)
}.
Arguments mkReading {F} _ _ _ _.
Arguments r_date {F} _.
Arguments r_type {F} _.
Arguments r_value {F} _.
Arguments r_source {F} _.

(** [sort_values] by one integer-valued column.  pandas sorts with an
    unstable quicksort by default, so the order of rows with equal keys
    is not fixed: a sort is any function that returns a sorted
    permutation. *)
Definition key_le {A : Type} (key : A → Z) : relation A := λ a b, key a ≤ key b.

Global Instance key_le_dec {A} (key : A → Z) : RelDecision (key_le key).
Proof. intros a b. unfold key_le. apply _. Defined.
Global Instance key_le_total {A} (key : A → Z) : Total (key_le key).
Proof. intros a b. unfold key_le. lia. Qed.
Global Instance key_le_trans {A} (key : A → Z) : Transitive (key_le key).
Proof. intros a b c. unfold key_le. lia. Qed.

Class SortValues : Type := {
  sort_values : ∀ {A : Type}, (A → Z) → list A → list A;
  sort_values_perm : ∀ {A : Type} (key : A → Z) (l : list A),
    sort_values key l ≡ₚ l;
  sort_values_sorted : ∀ {A : Type} (key : A → Z) (l : list A),
    Sorted (key_le key) (sort_values key l);
}.

(** One such sort. *)
Global Instance merge_sort_values : SortValues := {|
  sort_values := λ A key, merge_sort (key_le key);
  sort_values_perm := λ A key, merge_sort_Permutation (key_le key);
  sort_values_sorted := λ A key, Sorted_merge_sort (key_le key);
|}.

(** [Series.unique()]: the distinct values, in order of first appearance. *)
Fixpoint unique `{EqDecision A} (l : list A) : list A :=
  match l with
  | [] => []
  | x :: l' => x :: filter (λ y, y ≠ x) (unique l')
  end.

(** [Series.nunique()]. *)
Definition nunique `{EqDecision A} (l : list A) : Z := Z.of_nat (length (unique l)).

(** [df[df['Type'] == reading_type].sort_values('Date')]. *)
Definition select_type {F} (reading_type : string) (df : list (Reading F)) : list (Reading F) :=
  filter (λ r, r_type r = reading_type) df.

Definition type_df `{SortValues} {F} (df : list (Reading F)) (reading_type : string)
  : list (Reading F) :=
  sort_values r_date (select_type reading_type df).

(* ================================================================== *)
(** * Usage interpolator (app.py, lines 93-110) *)

Record DailyUsagePoint (F : Type) : Type := mkPoint {
  dp_date : Z;         (* 'Date' *)
  dp_type : string;    (* 'Type' *)
  dp_usage : F;        (* 'Daily Usage (kWh)' *)
}.
Arguments mkPoint {F} _ _ _.
Arguments dp_date {F} _.
Arguments dp_type {F} _.
Arguments dp_usage {F} _.

Section Interpolator.
Context `{Arith F}.

(** [reading_diff / days_diff if days_diff > 0 else 0] *)
Definition daily_avg (reading_diff : F) (days_diff : Z) : result F :=
  if decide (days_diff > 0) then true_div reading_diff days_diff else Ok fzero.

(** The body of the loop over [i]: the entries appended for the pair
    of rows [i-1] and [i]. *)
Definition interval_points (reading_type : string) (prev cur : Reading F)
  : result (list (DailyUsagePoint F)) :=
  let start_date := r_date prev in
  let end_date := r_date cur in
  let days_diff := end_date - start_date in
  let reading_diff := fsub (r_value cur) (r_value prev) in
  avg ← daily_avg reading_diff days_diff;
  mret ((λ day, mkPoint (start_date + day) reading_type avg) <$> seqZ 0 days_diff).

(** [for i in range(1, len(type_df))] *)
Fixpoint type_points (reading_type : string) (rows : list (Reading F))
  : result (list (DailyUsagePoint F)) :=
  match rows with
  | [] => mret []
  | prev :: rest =>
      match rest with
      | [] => mret []
      | cur :: _ =>
          ps ← interval_points reading_type prev cur;
          qs ← type_points reading_type rest;
          mret (ps ++ qs)
      end
  end.

(** [for reading_type in df['Type'].unique()] *)
Definition daily_usage_data `{SortValues} (df : list (Reading F))
  : result (list (DailyUsagePoint F)) :=
  mjoin <$> mapM (λ reading_type, type_points reading_type (type_df df reading_type))
                  (unique (r_type <$> df)).

(** The points of one type, and those of one type within the dates
    [[d1, d2)]. *)
Definition points_of_type (t : string) (pts : list (DailyUsagePoint F))
  : list (DailyUsagePoint F) :=
  filter (λ p, dp_type p = t) pts.

Definition points_in_span (t : string) (d1 d2 : Z) (pts : list (DailyUsagePoint F))
  : list (DailyUsagePoint F) :=
  filter (λ p, d1 ≤ dp_date p < d2) (points_of_type t pts).
End Interpolator.

(* ================================================================== *)
(** * Tariff plans (app.py, lines 16-31) *)

Record TariffPlan (F : Type) : Type := mkPlan {
  anytime_rate : F;                          (* c/kWh *)
  controlled_load_rate : F;                  (* c/kWh *)
  solar_feed_in : F;                         (* c/kWh *)
  supply_daily_charge : F;                   (* $/day *)
  controlled_load_supply_daily_charge : F;   (* $/day *)
}.
Arguments mkPlan {F} _ _ _ _ _.
Arguments anytime_rate {F} _.
Arguments controlled_load_rate {F} _.
Arguments solar_feed_in {F} _.
Arguments supply_daily_charge {F} _.
Arguments controlled_load_supply_daily_charge {F} _.

(* ================================================================== *)
(** * Monthly aggregation and monthly costs (app.py, lines 112-168) *)

(** Order of the group keys of [groupby]: by year-month, then by type
    (string order). *)
Definition month_le : relation (Z * Z) := λ a b,
  a.1 < b.1 ∨ (a.1 = b.1 ∧ a.2 ≤ b.2).
Definition month_type_le : relation (Z * Z * string) := λ a b,
  (a.1 ≠ b.1 ∧ month_le a.1 b.1) ∨ (a.1 = b.1 ∧ String.leb a.2 b.2 = true).

Global Instance month_le_dec : RelDecision month_le.
Proof. intros a b. unfold month_le. apply _. Defined.
Global Instance month_type_le_dec : RelDecision month_type_le.
Proof. intros a b. unfold month_type_le. apply _. Defined.

Record MonthlyRow (F : Type) : Type := mkMonthlyRow {
  mt_month : Z * Z;    (* 'Month' *)
  mt_type : string;    (* 'Type' *)
  mt_total : F;        (* 'Total Usage (kWh)' *)
  mt_days : Z;         (* 'Days' *)
}.
Arguments mkMonthlyRow {F} _ _ _ _.
Arguments mt_month {F} _.
Arguments mt_type {F} _.
Arguments mt_total {F} _.
Arguments mt_days {F} _.

Section Aggregator.
Context `{Arith F} `{SortValues}.

(** [Series.iloc[0]] *)
Definition iloc0 {A} (l : list A) : result A :=
  match l with
  | [] => Raise IndexError
  | x :: _ => Ok x
  end.

(** [groupby(['Year-Month', 'Type'])['Daily Usage (kWh)'].sum()], with
    the summation [agg] used for each group. *)
Definition groupby_month_type (agg : list F → F) (pts : list (DailyUsagePoint F))
  : list (Z * Z * string * F) :=
  (λ k, (k, agg (dp_usage <$>
                 filter (λ p, (year_month (dp_date p), dp_type p) = k) pts)))
  <$> merge_sort month_type_le (unique ((λ p, (year_month (dp_date p), dp_type p)) <$> pts)).

(** [groupby('Year-Month')['Date'].nunique()] *)
Definition days_per_month (pts : list (DailyUsagePoint F)) : list (Z * Z * Z) :=
  (λ m, (m, nunique (dp_date <$> filter (λ p, year_month (dp_date p) = m) pts)))
  <$> merge_sort month_le (unique ((λ p, year_month (dp_date p)) <$> pts)).

(** [monthly_total], lines 119-129, with the summation [agg] used for
    each group: the group sums, sorted by the ['Sort_Date'] of their
    month (its first day, see [sort_date]) and joined with the day
    counts on ['Month']. *)
Definition monthly_total_with (agg : list F → F) (pts : list (DailyUsagePoint F))
  : list (MonthlyRow F) :=
  let sums := groupby_month_type agg pts in
  let sorted := sort_values (λ row, month_start row.1.1) sums in
  row ← sorted;
  d ← filter (λ d, d.1 = row.1.1) (days_per_month pts);
  [mkMonthlyRow row.1.1 row.1.2 row.2 d.2].

Definition monthly_total : list (DailyUsagePoint F) → list (MonthlyRow F) :=
  monthly_total_with group_sum.

(** Line 123 on the months of the table: it raises when one of them
    has no ['Sort_Date']. *)
Definition sort_dates (pts : list (DailyUsagePoint F)) : result (list Z) :=
  mapM (λ row : Z * Z * string * F, sort_date row.1.1) (groupby_month_type group_sum pts).

(** The usage of one type in the rows of a month:
    [month_data[month_data['Type'] == t]['Total Usage (kWh)'].sum()]. *)
Definition usage_of (t : string) (month_data : list (MonthlyRow F)) : F :=
  series_sum (mt_total <$> filter (λ r, mt_type r = t) month_data).

(** The body of the loop of lines 149-165, for one month. *)
Definition monthly_cost (current_plan : TariffPlan F) (rows : list (MonthlyRow F))
    (month : Z * Z) : result (Z * Z * F) :=
  let month_data := filter (λ r, mt_month r = month) rows in
  days_in_month ← iloc0 (mt_days <$> month_data);
  let anytime_usage := usage_of "anytime" month_data in
  let cl_usage := usage_of "controlled load" month_data in
  let solar_usage := usage_of "solar" month_data in
  let anytime_cost := fmul anytime_usage (fdiv (anytime_rate current_plan) (of_int 100)) in
  let cl_cost := fmul cl_usage (fdiv (controlled_load_rate current_plan) (of_int 100)) in
  let solar_credit := fmul solar_usage (fdiv (solar_feed_in current_plan) (of_int 100)) in
  let supply_cost :=
    fmul (fadd (supply_daily_charge current_plan)
               (controlled_load_supply_daily_charge current_plan))
         (of_int days_in_month) in
  let total_cost := fsub (fadd (fadd anytime_cost cl_cost) supply_cost) solar_credit in
  mret (month, total_cost).

(** [monthly_costs], lines 148-165. *)
Definition monthly_costs (current_plan : TariffPlan F) (rows : list (MonthlyRow F))
  : result (list (Z * Z * F)) :=
  mapM (monthly_cost current_plan rows) (unique (mt_month <$> rows)).
End Aggregator.

(* ================================================================== *)
(** * Annual projection and annual costs (app.py, lines 218-254) *)

Record AnnualCosts (F : Type) : Type := mkAnnual {
  ac_anytime_usage : F;
  ac_cl_usage : F;
  ac_solar_usage : F;
  ac_anytime_cost : F;
  ac_cl_cost : F;
  ac_solar_credit : F;
  ac_supply_cost : F;
  ac_total_cost : F;
  ac_days_in_data : option Z;   (* [None]: NaN, the span of an empty frame *)
}.
Arguments mkAnnual {F} _ _ _ _ _ _ _ _ _.
Arguments ac_anytime_usage {F} _.
Arguments ac_cl_usage {F} _.
Arguments ac_solar_usage {F} _.
Arguments ac_anytime_cost {F} _.
Arguments ac_cl_cost {F} _.
Arguments ac_solar_credit {F} _.
Arguments ac_supply_cost {F} _.
Arguments ac_total_cost {F} _.
Arguments ac_days_in_data {F} _.

Section Annual.
Context `{Arith F} `{SortValues}.

(** [df['Date'].min()] and [.max()]; [None] is [NaT], the result on an
    empty column. *)
Definition date_min (df : list (Reading F)) : option Z :=
  match r_date <$> df with
  | [] => None
  | d :: ds => Some (foldl Z.min d ds)
  end.
Definition date_max (df : list (Reading F)) : option Z :=
  match r_date <$> df with
  | [] => None
  | d :: ds => Some (foldl Z.max d ds)
  end.

(** [(max_date - min_date).days]; [None] is the NaN that [NaT - NaT]
    gives. *)
Definition days_in_data (df : list (Reading F)) : option Z :=
  max_date ← date_max df;
  min_date ← date_min df;
  Some (max_date - min_date).

(** The loop of lines 228-234 over the types still to visit, filling
    the dict [annual_usage]. *)
Fixpoint annual_usage_loop (df : list (Reading F)) (days : Z) (types : list string)
    (annual_usage : gmap string F) : result (gmap string F) :=
  match types with
  | [] => mret annual_usage
  | reading_type :: types' =>
      let rows := type_df df reading_type in
      if decide (2 ≤ length rows)%nat then
        last_row ← from_option Ok (Raise IndexError) (last rows);
        first_row ← from_option Ok (Raise IndexError) (head rows);
        let total_usage := fsub (r_value last_row) (r_value first_row) in
        per_day ← true_div total_usage days;
        annual_usage_loop df days types'
          (<[reading_type := fmul per_day (of_int 365)]> annual_usage)
      else annual_usage_loop df days types' annual_usage
  end.

(** [annual_usage.get(key, 0)] *)
Definition get_usage (annual_usage : gmap string F) (key : string) : F :=
  default fzero (annual_usage !! key).

Definition calculate_annual_costs (df : list (Reading F))
    (anytime_rate cl_rate solar_rate supply_charge cl_supply_charge : F)
  : result (option (AnnualCosts F)) :=
  let days := days_in_data df in
  if decide (days = Some 0) then mret None
  else
    annual_usage ←
      match days with
      | Some n => annual_usage_loop df n (unique (r_type <$> df)) ∅
      | None => mret ∅   (* empty frame: no type to visit *)
      end;
    let anytime_cost := fmul (get_usage annual_usage "anytime") (fdiv anytime_rate (of_int 100)) in
    let cl_cost := fmul (get_usage annual_usage "controlled load") (fdiv cl_rate (of_int 100)) in
    let solar_credit := fmul (get_usage annual_usage "solar") (fdiv solar_rate (of_int 100)) in
    let supply_cost := fmul (fadd supply_charge cl_supply_charge) (of_int 365) in
    let total_cost := fsub (fadd (fadd anytime_cost cl_cost) supply_cost) solar_credit in
    mret (Some {|
      ac_anytime_usage := get_usage annual_usage "anytime";
      ac_cl_usage := get_usage annual_usage "controlled load";
      ac_solar_usage := get_usage annual_usage "solar";
      ac_anytime_cost := anytime_cost;
      ac_cl_cost := cl_cost;
      ac_solar_credit := solar_credit;
      ac_supply_cost := supply_cost;
      ac_total_cost := total_cost;
      ac_days_in_data := days;
    |}).
End Annual.

(* ================================================================== *)
(** * Reading parser (app.py, lines 34-41) *)

(** A row as [pd.read_csv] delivers it: text cells, and [None] for a
    missing ['Reading Source'] cell.  Strings are ASCII.  Outside this
    model: cells of the other columns that pandas reads as missing
    values, and a ['Reading'] column in which no cell has a comma, a
    quote or other text, which [read_csv] delivers as numbers and on
    which the [.str] accessor of line 37 raises [AttributeError]. *)
Record RawRow : Type := mkRaw {
  raw_date : string;
  raw_type : string;
  raw_reading : string;
  raw_source : option string;
}.

Local Open Scope char_scope.

(** [str.replace(',', '')] *)
Fixpoint remove_commas (s : string) : string :=
  match s with
  | EmptyString => EmptyString
  | String c s' => if Ascii.eqb c "," then remove_commas s' else String c (remove_commas s')
  end.

(** [str.isspace] on an ASCII character: tab to carriage return, the
    four separators 28-31, and the blank. *)
Definition is_space (c : ascii) : bool :=
  let n := N_of_ascii c in
  ((9 <=? n) && (n <=? 13) || (28 <=? n) && (n <=? 32))%N.

(** [str.strip()] *)
Fixpoint lstrip (s : string) : string :=
  match s with
  | EmptyString => EmptyString
  | String c s' => if is_space c then lstrip s' else s
  end.
Fixpoint rstrip (s : string) : string :=
  match s with
  | EmptyString => EmptyString
  | String c s' =>
      match rstrip s' with
      | EmptyString => if is_space c then EmptyString else String c EmptyString
      | t => String c t
      end
  end.
Definition strip (s : string) : string := rstrip (lstrip s).

(** ** [float(str)] *)

(** What a float literal denotes, before rounding:
    [(-1)^negative * mantissa * 10^exp10], an infinity or NaN. *)
Inductive literal : Type :=
  | Finite (negative : bool) (mantissa : N) (exp10 : Z)
  | Infinite (negative : bool)
  | NotANumber.

Definition digit_of (c : ascii) : option N :=
  let n := N_of_ascii c in
  if ((48 <=? n) && (n <=? 57))%N then Some (n - 48)%N else None.

(** The rest of a [digitpart] whose first digit has been read:
    [(["_"] digit)*].  Returns the value, the number of digits read and
    the unread text. *)
Fixpoint more_digits (acc : N) (count : Z) (s : string) : N * Z * string :=
  match s with
  | EmptyString => (acc, count, s)
  | String c s' =>
      match digit_of c with
      | Some d => more_digits (10 * acc + d) (count + 1) s'
      | None =>
          if Ascii.eqb c "_" then
            match s' with
            | EmptyString => (acc, count, s)
            | String c' s'' =>
                match digit_of c' with
                | Some d => more_digits (10 * acc + d) (count + 1) s''
                | None => (acc, count, s)
                end
            end
          else (acc, count, s)
      end
  end.

(** [digitpart ::= digit (["_"] digit)*], continuing the value [acc]. *)
Definition digitpart (acc : N) (s : string) : option (N * Z * string) :=
  match s with
  | EmptyString => None
  | String c s' =>
      match digit_of c with
      | Some d => Some (more_digits (10 * acc + d) 1 s')
      | None => None
      end
  end.

(** [number ::= [digitpart] "." digitpart | digitpart ["."]].  Returns
    the digits as one integer, the number of fraction digits and the
    unread text. *)
Definition number (s : string) : option (N * Z * string) :=
  match s with
  | String "." s' => digitpart 0 s'
  | _ =>
      '(m, _, rest) ← digitpart 0 s;
      match rest with
      | String "." rest' =>
          match digitpart m rest' with
          | Some r => Some r
          | None => Some (m, 0, rest')
          end
      | _ => Some (m, 0, rest)
      end
  end.

(** [exponent ::= ("e" | "E") ["+" | "-"] digitpart], when there is one. *)
Definition exponent (s : string) : option (Z * string) :=
  match s with
  | String c s' =>
      if Ascii.eqb c "e" || Ascii.eqb c "E" then
        let '(neg, s'') :=
          match s' with
          | String "-" t => (true, t)
          | String "+" t => (false, t)
          | _ => (false, s')
          end in
        '(e, _, rest) ← digitpart 0 s'';
        Some (if neg : bool then - Z.of_N e else Z.of_N e, rest)
      else Some (0, s)
  | EmptyString => Some (0, s)
  end.

Definition lower (c : ascii) : ascii :=
  let n := N_of_ascii c in
  if ((65 <=? n) && (n <=? 90))%N then ascii_of_N (n + 32) else c.
Fixpoint lowercase (s : string) : string :=
  match s with
  | EmptyString => EmptyString
  | String c s' => String (lower c) (lowercase s')
  end.

(** [floatvalue ::= [sign] (floatnumber | infinity | nan)] *)
Definition floatvalue (s : string) : option literal :=
  let '(neg, body) :=
    match s with
    | String "-" t => (true, t)
    | String "+" t => (false, t)
    | _ => (false, s)
    end in
  let word := lowercase body in
  if String.eqb word "inf" || String.eqb word "infinity" then Some (Infinite neg)
  else if String.eqb word "nan" then Some NotANumber
  else
    '(m, frac, rest) ← number body;
    '(e, rest') ← exponent rest;
    match rest' with
    | EmptyString => Some (Finite neg m (e - frac))
    | _ => None
    end.

Local Close Scope char_scope.

(** The binary64 value of [m * 10^e], rounded once to nearest even.
    For a negative exponent the quotient is taken to 64 bits or more with
    a sticky last bit, so that rounding it rounds the exact value. *)
Definition binary64_of_decimal (m : N) (e : Z) : float :=
  if decide (0 ≤ e) then float_of_Z (Z.of_N m * 10 ^ e)
  else
    let den := 10 ^ (- e) in
    let shift := 64 + Z.log2_up den in
    let num := Z.of_N m * 2 ^ shift in
    let sticky := if decide (num mod den = 0) then 0 else 1 in
    SF2Prim (binary_normalize prec emax (2 * (num / den) + sticky) (- (shift + 1)) false).

Definition binary64_of_literal (l : literal) : float :=
  match l with
  | Finite neg m e =>
      let x := binary64_of_decimal m e in
      if neg then PrimFloat.opp x else x
  | Infinite neg => if neg then PrimFloat.neg_infinity else PrimFloat.infinity
  | NotANumber => PrimFloat.nan
  end.

(** [float(s)]: surrounding whitespace is ignored; anything that is not
    a float literal raises [ValueError]. *)
Definition py_float (s : string) : result float :=
  match floatvalue (strip s) with
  | Some l => Ok (binary64_of_literal l)
  | None => Raise ValueError
  end.

(** One cell of line 37:
    [df['Reading'].str.replace(',', '').str.strip().astype(float)]. *)
Definition clean_reading (s : string) : string := strip (remove_commas s).
Definition parse_reading (s : string) : result float := py_float (clean_reading s).

(** ** [pd.to_datetime(..., format='%d/%m/%Y')] *)

Local Open Scope char_scope.

(** The text before the first ["/"] and the text after it. *)
Fixpoint split_slash (s : string) : option (string * string) :=
  match s with
  | EmptyString => None
  | String c s' =>
      if Ascii.eqb c "/" then Some (EmptyString, s')
      else '(a, b) ← split_slash s'; Some (String c a, b)
  end.

Definition two_digits (a b : ascii) : option Z :=
  x ← digit_of a; y ← digit_of b; Some (Z.of_N (10 * x + y)).

(** [%d]: [3[0-1]|[1-2]\d|0[1-9]|[1-9]| [1-9]] *)
Definition directive_d (tok : string) : option Z :=
  match tok with
  | String a EmptyString =>
      d ← digit_of a; if decide (d = 0%N) then None else Some (Z.of_N d)
  | String " " (String b EmptyString) =>
      d ← digit_of b; if decide (d = 0%N) then None else Some (Z.of_N d)
  | String a (String b EmptyString) =>
      n ← two_digits a b; if decide (1 ≤ n ≤ 31) then Some n else None
  | _ => None
  end.

(** [%m]: [1[0-2]|0[1-9]|[1-9]] *)
Definition directive_m (tok : string) : option Z :=
  match tok with
  | String a EmptyString =>
      d ← digit_of a; if decide (d = 0%N) then None else Some (Z.of_N d)
  | String a (String b EmptyString) =>
      n ← two_digits a b; if decide (1 ≤ n ≤ 12) then Some n else None
  | _ => None
  end.

(** [%Y]: [\d\d\d\d], with nothing left unconverted after it. *)
Definition directive_Y (tok : string) : option Z :=
  match tok with
  | String a (String b (String c (String d EmptyString))) =>
      hi ← two_digits a b; lo ← two_digits c d; Some (100 * hi + lo)
  | _ => None
  end.

Local Close Scope char_scope.

(** The date of a cell, or [ValueError]: the text does not match the
    format, names a day the month does not have, or is out of the
    bounds of a [Timestamp].  (A text that pandas takes for a missing
    date, such as ['NaT'], is outside this model.) *)
Definition to_datetime (s : string) : result Z :=
  let parsed :=
    '(dtok, rest) ← split_slash s;
    '(mtok, ytok) ← split_slash rest;
    d ← directive_d dtok;
    m ← directive_m mtok;
    y ← directive_Y ytok;
    Some (y, m, d) in
  match parsed with
  | None => Raise ValueError
  | Some (y, m, d) =>
      if decide (d ≤ days_in_month y m) then
        let date := days_from_civil y m d in
        if decide (timestamp_min ≤ date ≤ timestamp_max) then Ok date
        else Raise ValueError
      else Raise ValueError
  end.

(** ** [load_data] *)

(** [fillna('manual')] *)
Definition fillna (value : string) (cell : option string) : string := default value cell.

(** The frame once its columns are converted, before sorting. *)
Definition make_reading (row : RawRow) (reading : float) (date : Z) : Reading float :=
  mkReading date (raw_type row) reading (fillna "manual" (raw_source row)).

Definition load_data `{SortValues} (rows : list RawRow) : result (list (Reading float)) :=
  readings ← mapM (λ row, parse_reading (raw_reading row)) rows;   (* line 37 *)
  dates ← mapM (λ row, to_datetime (raw_date row)) rows;           (* line 38 *)
  let df := zip_with (λ row vd, make_reading row vd.1 vd.2) rows (zip readings dates) in
  mret (sort_values r_date df).                                    (* line 40 *)

(* ================================================================== *)
(** * One run of the script *)

(** The loaded plan: the content of [current_plan.json], or the
    defaults when the file does not exist. *)
Definition default_plan : TariffPlan float :=
  mkPlan 25%float 18%float 8%float
         (binary64_of_decimal 120 (-2)) (binary64_of_decimal 50 (-2)).

Definition load_current_plan (config_file : option (TariffPlan float)) : TariffPlan float :=
  match config_file with
  | Some plan => plan
  | None => default_plan
  end.

(** The values the user has typed into the ten tariff fields of the
    cost tab in this session; [None] for a field left untouched. *)
Record Session : Type := mkSession {
  curr_anytime : option float;
  curr_cl : option float;
  curr_solar : option float;
  curr_supply : option float;
  curr_cl_supply : option float;
  comp_anytime : option float;
  comp_cl : option float;
  comp_solar : option float;
  comp_supply : option float;
  comp_cl_supply : option float;
}.

(** [st.number_input(label, value=v, ...)]: the typed value, or [v]. *)
Definition number_input (value : float) (typed : option float) : float := default value typed.

(** What a run computes for display. *)
Record Outputs : Type := mkOutputs {
  out_monthly_costs : list (Z * Z * float);      (* the annotations of the monthly chart *)
  out_current_calc : option (AnnualCosts float);
  out_comp_calc : option (AnnualCosts float);
}.

Definition run `{SortValues} (config_file : option (TariffPlan float))
    (uploaded_file : option (list RawRow)) (session : Session)
  : result (option Outputs) :=
  let current_plan := load_current_plan config_file in
  match uploaded_file with
  | None => mret None
  | Some rows =>
      df ← load_data rows;
      (* line 49: [df['Date'].min().strftime(...)] fails on [NaT] *)
      _ ← (if decide (df = []) then Raise ValueError else mret ());
      (* tab 1 *)
      daily_usage ← daily_usage_data df;
      costs ←
        (if decide (daily_usage = []) then mret []
         else monthly_costs current_plan (monthly_total daily_usage));
      (* tab 2 *)
      let current_anytime := number_input (anytime_rate current_plan) (curr_anytime session) in
      let current_cl := number_input (controlled_load_rate current_plan) (curr_cl session) in
      let current_solar := number_input (solar_feed_in current_plan) (curr_solar session) in
      let current_supply :=
        number_input (supply_daily_charge current_plan) (curr_supply session) in
      let current_cl_supply :=
        number_input (controlled_load_supply_daily_charge current_plan)
                     (curr_cl_supply session) in
      let comp_anytime' := number_input 23%float (comp_anytime session) in
      let comp_cl' := number_input 17%float (comp_cl session) in
      let comp_solar' := number_input 10%float (comp_solar session) in
      let comp_supply' := number_input (binary64_of_decimal 110 (-2)) (comp_supply session) in
      let comp_cl_supply' :=
        number_input (binary64_of_decimal 45 (-2)) (comp_cl_supply session) in
      current_calc ← calculate_annual_costs df current_anytime current_cl current_solar
                        current_supply current_cl_supply;
      comp_calc ← calculate_annual_costs df comp_anytime' comp_cl' comp_solar'
                        comp_supply' comp_cl_supply';
      mret (Some (mkOutputs costs current_calc comp_calc))
  end.

(* ================================================================== *)
(** * Readings chart and usage statistics (app.py, lines 61-79 and 350-369) *)

(** The marker of a reading: a triangle for a bill, a circle otherwise. *)
Inductive marker : Type := triangle_up | circle.

(** One [go.Scatter] trace of the readings chart. *)
Record ScatterTrace (F : Type) : Type := mkTrace {
  tr_name : string;            (* name *)
  tr_x : list Z;               (* x: the dates *)
  tr_y : list F;               (* y: the readings *)
  tr_symbols : list marker;    (* marker symbols *)
}.
Arguments mkTrace {F} _ _ _ _.
Arguments tr_name {F} _.
Arguments tr_x {F} _.
Arguments tr_y {F} _.
Arguments tr_symbols {F} _.

(** ['triangle-up' if source == 'bill' else 'circle'] *)
Definition symbol_of (source : string) : marker :=
  if decide (source = "bill") then triangle_up else circle.

(** The traces added by the loop of lines 65-79, one per reading type. *)
Definition readings_traces `{SortValues} {F} (df : list (Reading F)) : list (ScatterTrace F) :=
  (λ reading_type,
     let type_data := type_df df reading_type in
     let symbols := (λ r, symbol_of (r_source r)) <$> type_data in
     mkTrace reading_type (r_date <$> type_data) (r_value <$> type_data) symbols)
  <$> unique (r_type <$> df).

(** The types that get a statistics panel:
    [daily_usage_df['Type'].unique()] (line 353). *)
Definition trend_types {F} (pts : list (DailyUsagePoint F)) : list string :=
  unique (dp_type <$> pts).

(** ["Total Days"]: [len(type_usage)] (line 369). *)
Definition total_days {F} (t : string) (pts : list (DailyUsagePoint F)) : Z :=
  Z.of_nat (length (points_of_type t pts)).

(** ["Average Daily Usage"]: [type_usage['Daily Usage (kWh)'].mean()]
    (line 361), the sum over the count. *)
Definition average_daily_usage `{Arith F} (t : string) (pts : list (DailyUsagePoint F)) : F :=
  fdiv (fsum (dp_usage <$> points_of_type t pts))
       (of_int (Z.of_nat (length (points_of_type t pts)))).

(* ================================================================== *)
(** * Definitions used to state the properties *)

(** ** The interpolator's output as a list *)

Section InterpolatorView.
Context `{Arith F}.
Implicit Types (rows : list (Reading F)) (t : string).

(** The run of [n] points from day [d] on with usage [q]. *)
Definition span_points t (d n : Z) (q : F) : list (DailyUsagePoint F) :=
  (λ day, mkPoint (d + day) t q) <$> seqZ 0 n.

(** The value [daily_avg] takes for a pair of rows. *)
Definition interval_avg (prev cur : Reading F) : F :=
  if decide (r_date cur - r_date prev > 0)
  then fdiv (fsub (r_value cur) (r_value prev)) (of_int (r_date cur - r_date prev))
  else fzero.

(** The points of consecutive pairs, as a list. *)
Fixpoint interpolate t rows : list (DailyUsagePoint F) :=
  match rows with
  | [] => []
  | prev :: rest =>
      match rest with
      | [] => []
      | cur :: _ =>
          span_points t (r_date prev) (r_date cur - r_date prev) (interval_avg prev cur)
          ++ interpolate t rest
      end
  end.
End InterpolatorView.

(** ** The specification's wording of the projection and of the costs *)

(** The projection as the specification words it: for a type with at
    least two readings, the last value minus the first, divided by the
    days spanned by the data and multiplied by 365; zero otherwise. *)
Definition spec_annual_projection `{Arith F} `{SortValues}
    (df : list (Reading F)) (days : Z) (t : string) : F :=
  match head (type_df df t), last (type_df df t) with
  | Some first_reading, Some last_reading =>
      if decide (2 ≤ length (type_df df t))%nat
      then fmul (fdiv (fsub (r_value last_reading) (r_value first_reading)) (of_int days))
                (of_int 365)
      else fzero
  | _, _ => fzero
  end.

Record CostBreakdown (F : Type) : Type := mkCosts {
  cb_anytime_cost : F;
  cb_controlled_load_cost : F;
  cb_solar_credit : F;
  cb_supply_cost : F;
  cb_total_cost : F;
}.
Arguments mkCosts {F} _ _ _ _ _.
Arguments cb_anytime_cost {F} _.
Arguments cb_controlled_load_cost {F} _.
Arguments cb_solar_credit {F} _.
Arguments cb_supply_cost {F} _.
Arguments cb_total_cost {F} _.

(** The Cost Calculator as the specification words it: a function of
    the usage figures, the plan and the day count.  Each rate is
    converted from cents to the currency unit by the division by 100 and
    then applied to the usage. *)
Definition spec_cost_calculator `{Arith F} (anytime_usage cl_usage solar_usage : F)
    (plan : TariffPlan F) (day_count : Z) : CostBreakdown F :=
  let anytime_cost := fmul anytime_usage (fdiv (anytime_rate plan) (of_int 100)) in
  let controlled_load_cost :=
    fmul cl_usage (fdiv (controlled_load_rate plan) (of_int 100)) in
  let solar_credit := fmul solar_usage (fdiv (solar_feed_in plan) (of_int 100)) in
  let supply_cost :=
    fmul (fadd (supply_daily_charge plan) (controlled_load_supply_daily_charge plan))
         (of_int day_count) in
  let total_cost :=
    fsub (fadd (fadd anytime_cost controlled_load_cost) supply_cost) solar_credit in
  mkCosts anytime_cost controlled_load_cost solar_credit supply_cost total_cost.

(** ** Characters of a text *)


Definition first_char (s : string) : option ascii :=
  match s with
  | EmptyString => None
  | String c _ => Some c
  end.


(** ** Rows and runs *)


(** What a run shows: the monthly cost annotations, and the annual
    estimate for the current plan. *)
Definition shown_monthly_costs (r : result (option Outputs))
  : result (option (list (Z * Z * float))) :=
  (λ o : option Outputs, out_monthly_costs <$> o) <$> r.
Definition shown_current_calc (r : result (option Outputs))
  : result (option (option (AnnualCosts float))) :=
  (λ o : option Outputs, out_current_calc <$> o) <$> r.

(** ** Markers of the readings chart *)

(** The markers a trace draws: its name with each date, reading and
    symbol. *)
Definition trace_markers {F} (tr : ScatterTrace F) : list (string * Z * F * marker) :=
  zip_with (λ xy s, (tr_name tr, xy.1, xy.2, s)) (zip (tr_x tr) (tr_y tr)) (tr_symbols tr).

(** The marker that stands for a reading. *)
Definition marker_of {F} (r : Reading F) : string * Z * F * marker :=
  (r_type r, r_date r, r_value r, symbol_of (r_source r)).

(** ** Texts of a reading cell *)





(* ================================================================== *)
(** * Properties *)

(** ** The calendar, on known dates *)

Example days_from_civil_epoch : days_from_civil 1970 1 1 = 0.
Proof. reflexivity. Qed.
Example days_from_civil_2024 : days_from_civil 2024 12 17 = 20074.
Proof. reflexivity. Qed.
Example civil_from_days_leap : civil_from_days (days_from_civil 2024 2 29) = (2024, 2, 29).
Proof. reflexivity. Qed.
Example year_month_rollover : year_month (days_from_civil 2023 12 31 + 1) = (2024, 1).
Proof. reflexivity. Qed.

(** ** The result monad *)

Lemma mapM_Ok {A B} (f : A → result B) (g : A → B) (l : list A) :
  (∀ x, x ∈ l → f x = Ok (g x)) → mapM f l = Ok (g <$> l).
Proof.
  induction l as [|x l IH]; intros Hf; [done|]. cbn.
  rewrite (Hf x) by left. cbn. rewrite IH; [done|].
  intros y Hy. apply Hf. by right.
Qed.



(** ** [unique] *)

Lemma elem_of_unique `{EqDecision A} (l : list A) (x : A) : x ∈ unique l ↔ x ∈ l.
Proof.
  induction l as [|y l IH]; cbn; [done|].
  rewrite !elem_of_cons, list_elem_of_filter, IH.
  destruct (decide (x = y)); tauto.
Qed.

Lemma NoDup_unique `{EqDecision A} (l : list A) : NoDup (unique l).
Proof.
  induction l as [|y l IH]; cbn; [constructor|].
  constructor; [|by apply NoDup_filter].
  rewrite list_elem_of_filter. intros [Hne _]. by apply Hne.
Qed.

(** ** The interpolator never raises *)

Section InterpolatorFacts.
Context `{Arith F}.
Implicit Types (rows : list (Reading F)) (t : string).

Lemma daily_avg_Ok (x : F) (n : Z) :
  daily_avg x n = Ok (if decide (n > 0) then fdiv x (of_int n) else fzero).
Proof.
  unfold daily_avg, true_div. destruct (decide (n > 0)); [|done].
  destruct (decide (n = 0)); [lia|done].
Qed.

Lemma interval_points_Ok t prev cur :
  interval_points t prev cur
  = Ok (span_points t (r_date prev) (r_date cur - r_date prev) (interval_avg prev cur)).
Proof. unfold interval_points. rewrite daily_avg_Ok. done. Qed.

Lemma type_points_Ok t rows : type_points t rows = Ok (interpolate t rows).
Proof.
  induction rows as [|prev rest IH]; [done|].
  destruct rest as [|cur rest']; [done|].
  cbn [type_points] in *. rewrite interval_points_Ok. cbn.
  rewrite IH. done.
Qed.

Lemma daily_usage_data_Ok `{SortValues} (df : list (Reading F)) :
  daily_usage_data df
  = Ok (mjoin ((λ t, interpolate t (type_df df t)) <$> unique (r_type <$> df))).
Proof.
  unfold daily_usage_data.
  rewrite (mapM_Ok _ (λ t, interpolate t (type_df df t))); [done|].
  intros t _. apply type_points_Ok.
Qed.
End InterpolatorFacts.

(** ** Lists *)

Lemma filter_all {A} (P : A → Prop) `{∀ x, Decision (P x)} (l : list A) :
  (∀ x, x ∈ l → P x) → filter P l = l.
Proof.
  induction l as [|x l IH]; intros HP; [done|].
  rewrite filter_cons_True by (apply HP; left).
  f_equal. apply IH. intros y Hy. apply HP. by right.
Qed.

Lemma filter_none {A} (P : A → Prop) `{∀ x, Decision (P x)} (l : list A) :
  (∀ x, x ∈ l → ¬ P x) → filter P l = [].
Proof.
  induction l as [|x l IH]; intros HP; [done|].
  rewrite filter_cons_False by (apply HP; left).
  apply IH. intros y Hy. apply HP. by right.
Qed.

Lemma Sorted_cons_cons_inv {A} (R : relation A) (a b : A) (l : list A) :
  Sorted R (a :: b :: l) → R a b ∧ Sorted R (b :: l).
Proof.
  intros Hs. apply Sorted_inv in Hs as [Hs Hhd].
  split; [|done]. by apply HdRel_inv in Hhd.
Qed.

Lemma Sorted_app_inv {A} (R : relation A) (l1 l2 : list A) :
  Sorted R (l1 ++ l2) → Sorted R l1 ∧ Sorted R l2.
Proof.
  induction l1 as [|a l1 IH]; cbn; intros Hs.
  - split; [constructor|done].
  - apply Sorted_inv in Hs as [Hs Hhd]. destruct (IH Hs) as [H1 H2].
    split; [|done]. constructor; [done|].
    destruct l1; [constructor|]. cbn in Hhd. apply HdRel_inv in Hhd. by constructor.
Qed.

(** ** The shape of the interpolator's output *)

Section InterpolatorShape.
Context `{Arith F}.
Implicit Types (rows : list (Reading F)) (t : string) (p : DailyUsagePoint F) (q : F).

Lemma elem_of_span_points t d n q p :
  p ∈ span_points t d n q ↔ ∃ day, 0 ≤ day < n ∧ p = mkPoint (d + day) t q.
Proof.
  unfold span_points. rewrite list_elem_of_fmap. split.
  - intros (day & -> & Hday). apply elem_of_seqZ in Hday. exists day. split; [lia|done].
  - intros (day & Hday & ->). exists day. split; [done|]. apply elem_of_seqZ. lia.
Qed.

Lemma span_points_dates t d n q : dp_date <$> span_points t d n q = seqZ d n.
Proof.
  unfold span_points. rewrite <- list_fmap_compose.
  replace (seqZ d n) with (seqZ (d + 0) n) by (f_equal; lia).
  by rewrite <- fmap_add_seqZ.
Qed.

Lemma span_points_usage t d n q :
  dp_usage <$> span_points t d n q = replicate (Z.to_nat n) q.
Proof.
  unfold span_points, seqZ. rewrite <- !list_fmap_compose.
  generalize (Z.to_nat n) as k, 0%nat. intros k.
  induction k as [|k IH]; intros i; cbn; [done|]. by rewrite IH.
Qed.

Lemma span_points_length t d n q : length (span_points t d n q) = Z.to_nat n.
Proof. unfold span_points. by rewrite length_fmap, length_seqZ. Qed.

Lemma interpolate_cons_cons t prev cur rest :
  interpolate t (prev :: cur :: rest)
  = span_points t (r_date prev) (r_date cur - r_date prev) (interval_avg prev cur)
    ++ interpolate t (cur :: rest).
Proof. done. Qed.

Lemma interpolate_type t rows p : p ∈ interpolate t rows → dp_type p = t.
Proof.
  induction rows as [|prev rest IH]; [by intros ?%elem_of_nil|].
  destruct rest as [|cur rest']; [by intros ?%elem_of_nil|].
  rewrite interpolate_cons_cons, elem_of_app. intros [Hp|Hp]; [|by apply IH].
  apply elem_of_span_points in Hp as (day & _ & ->). done.
Qed.

(** Splitting the rows at a row splits the output at its date. *)
Lemma interpolate_app t rows1 a rows2 :
  interpolate t (rows1 ++ a :: rows2)
  = interpolate t (rows1 ++ [a]) ++ interpolate t (a :: rows2).
Proof.
  induction rows1 as [|x rows1 IH]; [done|].
  destruct rows1 as [|y rows1'].
  - cbn [app]. rewrite !interpolate_cons_cons. cbn [interpolate].
    by rewrite app_nil_r.
  - cbn [app] in *. rewrite !interpolate_cons_cons, IH. by rewrite app_assoc.
Qed.

(** On rows sorted by date the output has one point for each day from
    the first row's date up to, not including, the last row's date, in
    order. *)
Lemma interpolate_dates t rows first_row last_row :
  Sorted (key_le r_date) rows →
  head rows = Some first_row → last rows = Some last_row →
  r_date first_row ≤ r_date last_row ∧
  dp_date <$> interpolate t rows
  = seqZ (r_date first_row) (r_date last_row - r_date first_row).
Proof.
  revert first_row. induction rows as [|a rest IH]; intros first_row Hs Hh Hl; [done|].
  injection Hh as <-. destruct rest as [|b rest'].
  - injection Hl as <-. split; [lia|]. rewrite seqZ_nil by lia. done.
  - apply Sorted_cons_cons_inv in Hs as [Hab Hs]. unfold key_le in Hab.
    destruct (IH b Hs eq_refl Hl) as [Hbl Hd].
    split; [lia|].
    rewrite interpolate_cons_cons, fmap_app, span_points_dates, Hd.
    replace (r_date last_row - r_date a)
      with ((r_date b - r_date a) + (r_date last_row - r_date b)) by lia.
    rewrite seqZ_app by lia. do 2 f_equal. lia.
Qed.

(** With fewer than two rows there is no pair, hence no point. *)
Lemma interpolate_short t rows : (length rows < 2)%nat → interpolate t rows = [].
Proof. destruct rows as [|a [|b rest]]; cbn; [done|done|lia]. Qed.

(** The points of one type in the whole output are the points made
    from that type's rows. *)
Lemma points_of_type_join t (ts : list string) (f : string → list (DailyUsagePoint F)) :
  NoDup ts → (∀ t' p, p ∈ f t' → dp_type p = t') →
  points_of_type t (mjoin (f <$> ts)) = if decide (t ∈ ts) then f t else [].
Proof.
  intros Hnd Hf. unfold points_of_type.
  induction Hnd as [|t' ts Hnotin Hnd IH]; [done|].
  change (mjoin (f <$> t' :: ts)) with (f t' ++ mjoin (f <$> ts)).
  rewrite filter_app. rewrite IH.
  destruct (decide (t = t')) as [->|Hne].
  - rewrite (decide_True (P := t' ∈ t' :: ts)) by left.
    rewrite (decide_False (P := t' ∈ ts)) by done.
    rewrite app_nil_r. apply filter_all. intros p Hp. by apply Hf.
  - rewrite (filter_none _ (f t')).
    2:{ intros p Hp Ht. apply Hf in Hp. congruence. }
    cbn [app]. destruct (decide (t ∈ ts)) as [Hin|Hout].
    + rewrite decide_True by (by right). done.
    + rewrite decide_False; [done|]. rewrite elem_of_cons. tauto.
Qed.

Lemma type_df_perm `{SortValues} (df : list (Reading F)) t :
  type_df df t ≡ₚ select_type t df.
Proof. apply sort_values_perm. Qed.

Lemma type_df_sorted `{SortValues} (df : list (Reading F)) t :
  Sorted (key_le r_date) (type_df df t).
Proof. apply sort_values_sorted. Qed.

Lemma type_df_absent `{SortValues} (df : list (Reading F)) t :
  t ∉ unique (r_type <$> df) → type_df df t = [].
Proof.
  intros Hnotin. apply Permutation_nil_r. rewrite type_df_perm.
  unfold select_type. rewrite filter_none; [done|].
  intros r Hr Ht. apply Hnotin. apply elem_of_unique, list_elem_of_fmap. eauto.
Qed.

Lemma points_of_type_daily `{SortValues} (df : list (Reading F)) t pts :
  daily_usage_data df = Ok pts →
  points_of_type t pts = interpolate t (type_df df t).
Proof.
  rewrite daily_usage_data_Ok. intros [= <-].
  rewrite (points_of_type_join t _ (λ t', interpolate t' (type_df df t'))).
  - destruct (decide _) as [|Hnotin]; [done|]. by rewrite type_df_absent.
  - apply NoDup_unique.
  - intros t' p. apply interpolate_type.
Qed.
End InterpolatorShape.

(** ** Exact arithmetic *)

Global Instance exact_laws : ExactArith Qc.
Proof.
  split; cbn.
  - apply Qcplus_assoc.
  - apply Qcplus_comm.
  - apply Qcplus_0_l.
  - done.
  - intros n. apply Qc_is_canon. cbn.
    rewrite !Qred_correct, inject_Z_plus. reflexivity.
  - apply Qcmult_0_l.
  - apply Qcmult_1_l.
  - apply Qcmult_plus_distr_l.
  - intros x n Hn. apply Qcmult_div_r.
    intros Hz. apply Hn.
    change (Q2Qc (inject_Z n) = Q2Qc (inject_Z 0)) in Hz.
    apply Q2Qc_eq_iff in Hz. unfold Qeq in Hz. cbn in Hz. lia.
  - intros x y. ring.
  - intros x. ring.
  - done.
Qed.

(** Binary64 addition is not associative: binary64 is not an exact
    arithmetic. *)
Lemma binary64_not_exact : ¬ ExactArith float.
Proof.
  intros Hex.
  pose proof (fadd_assoc (binary64_of_decimal 1 (-1)) (binary64_of_decimal 2 (-1))
                         (binary64_of_decimal 3 (-1))) as Hassoc.
  vm_compute in Hassoc. discriminate Hassoc.
Qed.

Section ExactSums.
Context `{ExactArith F}.
Implicit Types (x y a q : F) (l : list F).

Lemma fadd_zero_r x : fadd x fzero = x.
Proof. by rewrite fadd_comm, fadd_zero_l. Qed.

Lemma fsub_zero_r x : fsub x fzero = x.
Proof. rewrite <- (fadd_zero_l x) at 1. apply fsub_add_cancel_l. Qed.

(** In exact arithmetic the compensation stays 0 and no value is
    skipped: pandas' sums are the plain sum. *)
Lemma group_sum_step_exact a x : group_sum_step (a, fzero) x = (fadd a x, fzero).
Proof.
  unfold group_sum_step. cbn [fst snd]. rewrite fis_nan_exact. cbv zeta.
  rewrite fsub_zero_r, fsub_add_cancel_l, fsub_diag. by rewrite fis_nan_exact.
Qed.

Lemma group_sum_exact l : group_sum l = fsum l.
Proof.
  unfold group_sum, fsum.
  assert (∀ a, foldl group_sum_step (a, fzero) l = (foldl fadd a l, fzero)) as ->; [|done].
  induction l as [|x l IH]; intros a; [done|].
  cbn [foldl]. by rewrite group_sum_step_exact, IH.
Qed.

Lemma series_sum_exact l : series_sum l = fsum l.
Proof.
  unfold series_sum. f_equal. apply filter_all. intros x _. apply fis_nan_exact.
Qed.

Lemma foldl_fadd_acc a l : foldl fadd a l = fadd a (fsum l).
Proof.
  unfold fsum. revert a. induction l as [|x l IH]; intros a; cbn.
  - by rewrite fadd_zero_r.
  - rewrite (IH (fadd a x)), (IH (fadd fzero x)), fadd_zero_l.
    by rewrite fadd_assoc.
Qed.

Lemma fsum_nil : fsum [] = fzero.
Proof. done. Qed.

Lemma fsum_cons x l : fsum (x :: l) = fadd x (fsum l).
Proof. unfold fsum at 1. cbn. by rewrite foldl_fadd_acc, fadd_zero_l. Qed.

Lemma fsum_app l1 l2 : fsum (l1 ++ l2) = fadd (fsum l1) (fsum l2).
Proof.
  induction l1 as [|x l1 IH]; cbn [app].
  - by rewrite fsum_nil, fadd_zero_l.
  - by rewrite !fsum_cons, IH, fadd_assoc.
Qed.

Lemma fsum_perm l1 l2 : l1 ≡ₚ l2 → fsum l1 = fsum l2.
Proof.
  induction 1 as [|x l1 l2 _ IH|x y l|l1 l2 l3 _ IH1 _ IH2].
  - done.
  - by rewrite !fsum_cons, IH.
  - rewrite !fsum_cons, !fadd_assoc. by rewrite (fadd_comm y x).
  - by rewrite IH1.
Qed.

(** Adding [n] copies of [q] gives [n * q]. *)
Lemma fsum_replicate (n : nat) q :
  fsum (replicate n q) = fmul (of_int (Z.of_nat n)) q.
Proof.
  induction n as [|n IH].
  - cbn [replicate]. by rewrite fsum_nil, of_int_0, fmul_zero_l.
  - cbn [replicate]. rewrite fsum_cons, IH.
    replace (Z.of_nat (S n)) with (Z.of_nat n + 1) by lia.
    rewrite of_int_succ, fmul_add_distr_r, fmul_one_l. apply fadd_comm.
Qed.

(** The shares of an evenly divided amount add up to the amount. *)
Lemma fsum_even_shares (n : Z) x :
  0 < n → fsum (replicate (Z.to_nat n) (fdiv x (of_int n))) = x.
Proof.
  intros Hn. rewrite fsum_replicate, Z2Nat.id by lia.
  apply fmul_div_cancel. lia.
Qed.
End ExactSums.

(** ** One interval of the interpolation *)

Section Intervals.
Context `{Arith F} `{SortValues}.
Implicit Types (rows : list (Reading F)) (t : string) (p : DailyUsagePoint F).

Lemma interpolate_date_bounds t rows first_row last_row p :
  Sorted (key_le r_date) rows →
  head rows = Some first_row → last rows = Some last_row →
  p ∈ interpolate t rows →
  r_date first_row ≤ dp_date p < r_date last_row.
Proof.
  intros Hs Hh Hl Hp.
  destruct (interpolate_dates t rows first_row last_row Hs Hh Hl) as [_ Hd].
  assert (dp_date p ∈ dp_date <$> interpolate t rows) as Hin
    by (apply list_elem_of_fmap; eauto).
  rewrite Hd in Hin. apply elem_of_seqZ in Hin. lia.
Qed.

(** The points dated within the interval between two consecutive rows
    of a type are those of that pair of rows. *)
Lemma points_in_span_interval (df : list (Reading F)) t before r1 r2 after pts :
  daily_usage_data df = Ok pts →
  type_df df t = before ++ r1 :: r2 :: after →
  r_date r1 < r_date r2 →
  points_in_span t (r_date r1) (r_date r2) pts
  = span_points t (r_date r1) (r_date r2 - r_date r1)
      (fdiv (fsub (r_value r2) (r_value r1)) (of_int (r_date r2 - r_date r1))).
Proof.
  intros Hpts Hdf Hlt. unfold points_in_span.
  rewrite (points_of_type_daily df t pts Hpts), Hdf.
  pose proof (type_df_sorted df t) as Hs. rewrite Hdf in Hs.
  rewrite interpolate_app, interpolate_cons_cons, !filter_app.
  assert (Sorted (key_le r_date) (before ++ [r1]) ∧ Sorted (key_le r_date) (r2 :: after))
    as [Hs1 Hs2].
  { replace (before ++ r1 :: r2 :: after) with ((before ++ [r1]) ++ r2 :: after) in Hs
      by (by rewrite <- app_assoc).
    by apply Sorted_app_inv. }
  rewrite (filter_none _ (interpolate t (before ++ [r1]))).
  2:{ intros p Hp.
      destruct (head (before ++ [r1])) as [first_row|] eqn:Hh.
      2:{ apply head_None in Hh. by destruct before. }
      pose proof (interpolate_date_bounds t _ first_row r1 p Hs1 Hh (last_snoc _ _) Hp).
      lia. }
  rewrite (filter_none _ (interpolate t (r2 :: after))).
  2:{ intros p Hp.
      destruct (last (r2 :: after)) as [last_row|] eqn:Hl.
      2:{ by apply last_None in Hl. }
      pose proof (interpolate_date_bounds t _ r2 last_row p Hs2 eq_refl Hl Hp).
      lia. }
  cbn [app]. rewrite app_nil_r.
  unfold interval_avg. rewrite decide_True by lia.
  apply filter_all. intros p Hp.
  apply elem_of_span_points in Hp as (day & Hday & ->). cbn. lia.
Qed.
End Intervals.

(** C1, as amended.  For two consecutive readings of a type, dated
    [d1 < d2] with values [v1] and [v2], the interpolator produces for
    the days in [[d1, d2)] exactly [d2 - d1] points, one per day, all
    with the same usage [(v2 - v1) / (d2 - d1)]; and where the arithmetic
    is exact, these usages add up to [v2 - v1].  (In binary64 the sum is
    [v2 - v1] only up to rounding.) *)
Theorem interval_usage_is_uniform `{Arith F} `{SortValues}
    (df : list (Reading F)) (t : string) (before after : list (Reading F))
    (r1 r2 : Reading F) :
  type_df df t = before ++ r1 :: r2 :: after →
  r_date r1 < r_date r2 →
  let days := r_date r2 - r_date r1 in
  let delta := fsub (r_value r2) (r_value r1) in
  ∃ pts, daily_usage_data df = Ok pts ∧
    points_in_span t (r_date r1) (r_date r2) pts
    = (λ day, mkPoint (r_date r1 + day) t (fdiv delta (of_int days))) <$> seqZ 0 days ∧
    (ExactArith F →
     fsum (dp_usage <$> points_in_span t (r_date r1) (r_date r2) pts) = delta).
Proof.
  intros Hdf Hlt days delta.
  eexists. split; [apply daily_usage_data_Ok|].
  pose proof (points_in_span_interval df t before r1 r2 after _
                (daily_usage_data_Ok df) Hdf Hlt) as Hspan.
  split; [exact Hspan|].
  intros Hex. rewrite Hspan, span_points_usage.
  apply fsum_even_shares. lia.
Qed.

Lemma interval_usage_is_uniform_witness :
  let r1 := mkReading (days_from_civil 2024 1 1) "anytime" (of_int 1000 : Qc) "bill" in
  let r2 := mkReading (days_from_civil 2024 1 31) "anytime" (of_int 1300 : Qc) "manual" in
  ∃ pts, daily_usage_data [r2; r1] = Ok pts ∧
    points_in_span "anytime" (r_date r1) (r_date r2) pts
    = (λ day, mkPoint (r_date r1 + day) "anytime" (fdiv (of_int 300) (of_int 30)))
      <$> seqZ 0 30 ∧
    fsum (dp_usage <$> points_in_span "anytime" (r_date r1) (r_date r2) pts) = of_int 300.
Proof.
  intros r1 r2.
  destruct (interval_usage_is_uniform [r2; r1] "anytime" [] [] r1 r2)
    as (pts & Hpts & Hspan & Hsum).
  - reflexivity.
  - reflexivity.
  - exists pts. split; [exact Hpts|]. split.
    + rewrite Hspan. reflexivity.
    + rewrite (Hsum exact_laws). apply Qc_is_canon. reflexivity.
Defined.

(** C1 as stated fails in the arithmetic the script runs on: for the
    readings 66444 on 2024-01-01 and 66445 on 2024-02-19, 49 days apart,
    every day receives [1/49] rounded to binary64, and neither the
    running sum, nor the compensated sum, nor the correctly rounded
    exact sum [49 * (1/49)] of the 49 values is 1. *)
Lemma interval_sum_inexact_in_binary64 :
  let r1 := mkReading (days_from_civil 2024 1 1) "anytime" (float_of_Z 66444) "bill" in
  let r2 := mkReading (days_from_civil 2024 2 19) "anytime" (float_of_Z 66445) "bill" in
  let df := [r1; r2] in
  type_df df "anytime" = [r1; r2] ∧
  r_date r1 < r_date r2 ∧
  PrimFloat.leb (r_value r1) (r_value r2) = true ∧
  ∃ pts, daily_usage_data df = Ok pts ∧
    length (points_in_span "anytime" (r_date r1) (r_date r2) pts) = 49%nat ∧
    fsum (dp_usage <$> points_in_span "anytime" (r_date r1) (r_date r2) pts)
    ≠ fsub (r_value r2) (r_value r1) ∧
    kahan_sum (dp_usage <$> points_in_span "anytime" (r_date r1) (r_date r2) pts)
    ≠ fsub (r_value r2) (r_value r1) ∧
    fmul (of_int 49) (fdiv (fsub (r_value r2) (r_value r1)) (of_int 49))
    ≠ fsub (r_value r2) (r_value r1).
Proof.
  intros r1 r2 df.
  split; [reflexivity|]. split; [reflexivity|]. split; [reflexivity|].
  eexists. split; [vm_compute; reflexivity|].
  split; [reflexivity|].
  repeat split; vm_compute; intros Heq; discriminate Heq.
Qed.

(** ** Coverage of the span of a type *)

Lemma length_filter_fmap_eq {A B} `{EqDecision B} (f : A → B) (y : B) (l : list A) :
  length (filter (λ x, f x = y) l) = length (filter (λ z, z = y) (f <$> l)).
Proof.
  induction l as [|x l IH]; [done|].
  rewrite fmap_cons, !filter_cons. destruct (decide (f x = y)); cbn; by rewrite IH.
Qed.

Lemma length_filter_eq_NoDup {B} `{EqDecision B} (y : B) (l : list B) :
  NoDup l → y ∈ l → length (filter (λ z, z = y) l) = 1%nat.
Proof.
  induction 1 as [|x l Hnotin Hnd IH]; [by intros ?%elem_of_nil|].
  rewrite elem_of_cons, filter_cons. intros [->|Hin].
  - rewrite decide_True by done. cbn [length]. f_equal.
    rewrite filter_none; [done|]. intros z Hz ->. done.
  - rewrite decide_False by (intros ->; done). by apply IH.
Qed.

(** C4.  The points of a reading type are dated with the days from the
    date of its first reading up to, not including, the date of its last
    reading: every such day, each exactly once and no other day.  A type
    with fewer than two readings has no points. *)
Theorem one_point_per_day_of_span `{Arith F} `{SortValues}
    (df : list (Reading F)) (t : string) :
  ∃ pts, daily_usage_data df = Ok pts ∧
    ((length (type_df df t) < 2)%nat → points_of_type t pts = []) ∧
    (∀ first_row last_row,
       (2 ≤ length (type_df df t))%nat →
       head (type_df df t) = Some first_row →
       last (type_df df t) = Some last_row →
       dp_date <$> points_of_type t pts
       = seqZ (r_date first_row) (r_date last_row - r_date first_row) ∧
       (∀ day, r_date first_row ≤ day < r_date last_row →
               length (filter (λ p, dp_date p = day) (points_of_type t pts)) = 1%nat) ∧
       (∀ p, p ∈ points_of_type t pts → r_date first_row ≤ dp_date p < r_date last_row)).
Proof.
  eexists. split; [apply daily_usage_data_Ok|].
  rewrite (points_of_type_daily df t _ (daily_usage_data_Ok df)).
  split; [apply interpolate_short|].
  intros first_row last_row _ Hh Hl.
  destruct (interpolate_dates t _ first_row last_row (type_df_sorted df t) Hh Hl)
    as [Hle Hdates].
  split; [exact Hdates|]. split.
  - intros day Hday. rewrite length_filter_fmap_eq, Hdates.
    apply length_filter_eq_NoDup; [apply NoDup_seqZ|]. apply elem_of_seqZ. lia.
  - intros p Hp.
    apply (interpolate_date_bounds t _ first_row last_row p (type_df_sorted df t) Hh Hl Hp).
Qed.

Lemma one_point_per_day_of_span_witness :
  let df := [mkReading (days_from_civil 2024 1 31) "anytime" (float_of_Z 1300) "bill";
             mkReading (days_from_civil 2024 1 1) "anytime" (float_of_Z 1000) "bill";
             mkReading (days_from_civil 2024 1 10) "anytime" (float_of_Z 1100) "manual";
             mkReading (days_from_civil 2024 1 10) "solar" (float_of_Z 5) "manual"] in
  ∃ pts, daily_usage_data df = Ok pts ∧
    points_of_type "solar" pts = [] ∧
    dp_date <$> points_of_type "anytime" pts = seqZ (days_from_civil 2024 1 1) 30 ∧
    length (filter (λ p, dp_date p = days_from_civil 2024 1 10)
                   (points_of_type "anytime" pts)) = 1%nat.
Proof.
  intros df.
  destruct (one_point_per_day_of_span df "solar") as (pts & Hpts & Hshort & _).
  destruct (one_point_per_day_of_span df "anytime") as (pts' & Hpts' & _ & Hspan).
  rewrite Hpts in Hpts'. injection Hpts' as <-.
  exists pts. split; [exact Hpts|].
  split; [apply Hshort; vm_compute; lia|].
  destruct (Hspan (mkReading (days_from_civil 2024 1 1) "anytime" (float_of_Z 1000) "bill")
                  (mkReading (days_from_civil 2024 1 31) "anytime" (float_of_Z 1300) "bill"))
    as (Hdates & Hone & _).
  - vm_compute. lia.
  - reflexivity.
  - reflexivity.
  - split; [exact Hdates|]. apply Hone. vm_compute. split; [intros Hc; discriminate Hc|reflexivity].
Defined.

(** ** Same-day readings *)

(** C6.  For a pair of consecutive readings with the same date the
    division is not evaluated: the average is the constant 0, no
    [ZeroDivisionError] is raised and the pair adds no point, so it
    contributes usage 0.  More generally the division is evaluated only
    for a positive span, and the interpolation of a frame never raises. *)
Theorem same_day_pair_divides_nothing `{Arith F} `{SortValues}
    (t : string) (prev cur : Reading F) :
  r_date prev = r_date cur →
  daily_avg (fsub (r_value cur) (r_value prev)) (r_date cur - r_date prev) = Ok fzero ∧
  interval_points t prev cur = Ok [] ∧
  (∀ ps, interval_points t prev cur = Ok ps → fsum (dp_usage <$> ps) = fzero) ∧
  (∀ (x : F) (n : Z), n ≤ 0 → daily_avg x n = Ok fzero) ∧
  (∀ (x : F) (n : Z), daily_avg x n ≠ Raise ZeroDivisionError) ∧
  (∀ df : list (Reading F), ¬ raises (daily_usage_data df)).
Proof.
  intros Hsame.
  assert (∀ (x : F) (n : Z), n ≤ 0 → daily_avg x n = Ok fzero) as Hle.
  { intros x n Hn. rewrite daily_avg_Ok. by rewrite decide_False by lia. }
  assert (interval_points t prev cur = Ok []) as Hnil.
  { rewrite interval_points_Ok. unfold span_points. by rewrite seqZ_nil by lia. }
  split; [apply Hle; lia|]. split; [exact Hnil|]. split.
  { intros ps. rewrite Hnil. by intros [= <-]. }
  split; [exact Hle|]. split.
  - intros x n. by rewrite daily_avg_Ok.
  - intros df. rewrite daily_usage_data_Ok. intros [].
Qed.

Lemma same_day_pair_divides_nothing_witness :
  let a := mkReading (days_from_civil 2024 12 17) "anytime" (float_of_Z 66444) "bill" in
  let b := mkReading (days_from_civil 2024 12 17) "anytime" (float_of_Z 66500) "manual" in
  daily_avg (fsub (r_value b) (r_value a)) (r_date b - r_date a) = Ok fzero ∧
  interval_points "anytime" a b = Ok [] ∧
  ¬ raises (daily_usage_data [a; b]).
Proof.
  intros a b.
  destruct (same_day_pair_divides_nothing "anytime" a b) as (Havg & Hnil & _ & _ & _ & Hsafe).
  - reflexivity.
  - split; [exact Havg|]. split; [exact Hnil|]. apply Hsafe.
Defined.

(** ** Readings that share a date *)

(** C9.  When two rows of a type share a date, both stay in the type's
    frame; the pair they form adds no point; and the points of the
    interval that follows are computed from the value of the later of
    the two rows in sorted order. *)
Theorem duplicate_date_later_row_is_boundary `{Arith F} `{SortValues}
    (df : list (Reading F)) (t : string) (before after : list (Reading F))
    (dup1 dup2 next : Reading F) :
  type_df df t = before ++ dup1 :: dup2 :: next :: after →
  r_date dup1 = r_date dup2 →
  length (type_df df t) = length (select_type t df) ∧
  dup1 ∈ select_type t df ∧ dup2 ∈ select_type t df ∧
  interval_points t dup1 dup2 = Ok [] ∧
  ∃ pts, daily_usage_data df = Ok pts ∧
    points_of_type t pts
    = interpolate t (before ++ [dup1]) ++ interpolate t (dup2 :: next :: after) ∧
    (r_date dup2 < r_date next →
     points_in_span t (r_date dup2) (r_date next) pts
     = (λ day, mkPoint (r_date dup2 + day) t
                 (fdiv (fsub (r_value next) (r_value dup2))
                       (of_int (r_date next - r_date dup2))))
       <$> seqZ 0 (r_date next - r_date dup2)).
Proof.
  intros Hdf Hsame.
  split; [by rewrite type_df_perm|].
  assert (∀ r, r ∈ type_df df t → r ∈ select_type t df) as Hin.
  { intros r. by rewrite type_df_perm. }
  split; [apply Hin; rewrite Hdf, elem_of_app, !elem_of_cons; tauto|].
  split; [apply Hin; rewrite Hdf, elem_of_app, !elem_of_cons; tauto|].
  split.
  { rewrite interval_points_Ok. unfold span_points. by rewrite seqZ_nil by lia. }
  eexists. split; [apply daily_usage_data_Ok|]. split.
  - rewrite (points_of_type_daily df t _ (daily_usage_data_Ok df)), Hdf.
    rewrite interpolate_app, interpolate_cons_cons.
    unfold span_points at 1. rewrite seqZ_nil by lia. done.
  - intros Hlt.
    apply (points_in_span_interval df t (before ++ [dup1]) dup2 next after);
      [apply daily_usage_data_Ok| |exact Hlt].
    by rewrite <- app_assoc.
Qed.

Lemma duplicate_date_later_row_is_boundary_witness :
  let a := mkReading (days_from_civil 2024 1 1) "anytime" (float_of_Z 1000) "bill" in
  let b := mkReading (days_from_civil 2024 1 1) "anytime" (float_of_Z 1100) "manual" in
  let c := mkReading (days_from_civil 2024 1 11) "anytime" (float_of_Z 1300) "bill" in
  type_df [a; b; c] "anytime" = [a; b; c] ∧
  ∃ pts, daily_usage_data [a; b; c] = Ok pts ∧
    pts = (λ day, mkPoint (r_date b + day) "anytime" (float_of_Z 20)) <$> seqZ 0 10.
Proof.
  intros a b c. split; [reflexivity|].
  destruct (duplicate_date_later_row_is_boundary [a; b; c] "anytime" [] [] a b c)
    as (_ & _ & _ & _ & pts & Hpts & _ & Hspan).
  - reflexivity.
  - reflexivity.
  - exists pts. split; [exact Hpts|].
    rewrite daily_usage_data_Ok in Hpts. injection Hpts as <-. reflexivity.
Defined.

(** ** Monthly totals *)

Lemma filter_ext_elem_of {A} (P Q : A → Prop) `{∀ x, Decision (P x)} `{∀ x, Decision (Q x)}
    (l : list A) :
  (∀ x, x ∈ l → (P x ↔ Q x)) → filter P l = filter Q l.
Proof.
  induction l as [|x l IH]; intros Hext; [done|].
  rewrite !filter_cons.
  assert (P x ↔ Q x) as Hx by (apply Hext; left).
  rewrite IH by (intros y Hy; apply Hext; by right).
  destruct (decide (P x)), (decide (Q x)); tauto.
Qed.

Lemma list_bind_singleton {A B} (f : A → list B) (h : A → B) (l : list A) :
  (∀ x, x ∈ l → f x = [h x]) → l ≫= f = h <$> l.
Proof.
  induction l as [|x l IH]; intros Hf; [done|].
  cbn. rewrite (Hf x) by left. cbn. f_equal.
  apply IH. intros y Hy. apply Hf. by right.
Qed.

Lemma filter_key_singleton {K V} `{EqDecision K} (g : K → V) (k : K) (ks : list K) :
  NoDup ks → k ∈ ks →
  filter (λ d : K * V, d.1 = k) ((λ k', (k', g k')) <$> ks) = [(k, g k)].
Proof.
  induction 1 as [|k' ks Hnotin Hnd IH]; [by intros ?%elem_of_nil|].
  rewrite elem_of_cons, fmap_cons, filter_cons. cbn. intros [->|Hin].
  - rewrite decide_True by done. f_equal.
    apply filter_none. intros d Hd Heq. apply list_elem_of_fmap in Hd as (k'' & -> & Hk'').
    cbn in Heq. by subst.
  - rewrite decide_False by (intros ->; done). by apply IH.
Qed.

Section MonthlyTotals.
Context `{ExactArith F} `{SortValues}.
Implicit Types (pts : list (DailyUsagePoint F)) (t : string).

Local Abbreviation month_type p := (year_month (dp_date p), dp_type p).

(** The usage of the points of a group of keys is the sum of the usage
    of each key's points. *)
Lemma fsum_filter_disjoint (P Q : DailyUsagePoint F → Prop)
    `{∀ p, Decision (P p)} `{∀ p, Decision (Q p)} pts :
  (∀ p, P p → Q p → False) →
  fsum (dp_usage <$> filter (λ p, P p ∨ Q p) pts)
  = fadd (fsum (dp_usage <$> filter P pts)) (fsum (dp_usage <$> filter Q pts)).
Proof.
  intros Hdisj. induction pts as [|p pts IH].
  - by rewrite !filter_nil, fmap_nil, fsum_nil, fadd_zero_l.
  - rewrite !filter_cons.
    destruct (decide (P p)) as [HP|HP], (decide (Q p)) as [HQ|HQ].
    + destruct (Hdisj p HP HQ).
    + rewrite decide_True by tauto. rewrite !fmap_cons, !fsum_cons, IH.
      by rewrite fadd_assoc.
    + rewrite decide_True by tauto. rewrite !fmap_cons, !fsum_cons, IH.
      rewrite !fadd_assoc. f_equal. apply fadd_comm.
    + rewrite decide_False by tauto. exact IH.
Qed.

Lemma fsum_groups {K} `{EqDecision K} (key : DailyUsagePoint F → K) (ks : list K) pts :
  NoDup ks →
  fsum ((λ k, fsum (dp_usage <$> filter (λ p, key p = k) pts)) <$> ks)
  = fsum (dp_usage <$> filter (λ p, key p ∈ ks) pts).
Proof.
  induction 1 as [|k ks Hnotin Hnd IH].
  - rewrite fmap_nil, fsum_nil, filter_none; [done|]. intros p _ ?%elem_of_nil. done.
  - rewrite fmap_cons, fsum_cons, IH.
    rewrite <- fsum_filter_disjoint by (intros p <- Hin; done).
    do 2 f_equal. apply list_filter_iff. intros p. rewrite elem_of_cons. done.
Qed.

Lemma elem_of_month_keys pts (m : Z * Z) :
  m ∈ merge_sort month_le (unique ((λ p, year_month (dp_date p)) <$> pts))
  ↔ ∃ p, p ∈ pts ∧ year_month (dp_date p) = m.
Proof.
  rewrite merge_sort_Permutation, elem_of_unique, list_elem_of_fmap.
  split; intros (p & Hm & Hp); exists p; by split.
Qed.

(** Each group row is joined with the one day count of its month. *)
Lemma monthly_total_with_rows (agg : list F → F) pts :
  monthly_total_with agg pts
  = (λ row : Z * Z * string * F,
       mkMonthlyRow row.1.1 row.1.2 row.2
         (nunique (dp_date <$> filter (λ p, year_month (dp_date p) = row.1.1) pts)))
    <$> sort_values (λ row, month_start row.1.1) (groupby_month_type agg pts).
Proof.
  unfold monthly_total_with. apply list_bind_singleton.
  intros row Hrow. rewrite sort_values_perm in Hrow.
  unfold groupby_month_type in Hrow.
  apply list_elem_of_fmap in Hrow as (k & -> & Hk).
  rewrite merge_sort_Permutation, elem_of_unique, list_elem_of_fmap in Hk.
  destruct Hk as (p & -> & Hp). cbn [fst snd].
  unfold days_per_month.
  rewrite (filter_key_singleton
             (λ m, nunique (dp_date <$> filter (λ p, year_month (dp_date p) = m) pts))
             (year_month (dp_date p))).
  - done.
  - rewrite merge_sort_Permutation. apply NoDup_unique.
  - apply elem_of_month_keys. eauto.
Qed.

Lemma monthly_total_exact pts : monthly_total pts = monthly_total_with fsum pts.
Proof.
  unfold monthly_total, monthly_total_with.
  assert (groupby_month_type group_sum pts = groupby_month_type fsum pts) as ->; [|done].
  unfold groupby_month_type. apply Forall_fmap_ext, Forall_forall.
  intros k _. by rewrite group_sum_exact.
Qed.

(** Aggregation consistency, for any list of daily points. *)
Lemma usage_of_monthly_total pts t :
  usage_of t (monthly_total pts) = fsum (dp_usage <$> points_of_type t pts).
Proof.
  unfold usage_of. rewrite series_sum_exact, monthly_total_exact.
  unfold points_of_type.
  rewrite monthly_total_with_rows.
  set (h := λ row : Z * Z * string * F, mkMonthlyRow _ _ _ _).
  set (G := λ k : Z * Z * string,
              fsum (dp_usage <$> filter (λ p, month_type p = k) pts)).
  set (uks := unique ((λ p, month_type p) <$> pts)).
  transitivity (fsum (G <$> filter (λ k : Z * Z * string, k.2 = t) uks)).
  - apply fsum_perm.
    rewrite (sort_values_perm _ (groupby_month_type fsum pts)).
    unfold groupby_month_type. fold uks. fold G.
    rewrite (merge_sort_Permutation month_type_le uks).
    clear. induction uks as [|k uks IH]; [done|].
    rewrite !fmap_cons, !filter_cons. cbn [mt_type h snd fst].
    destruct (decide (k.2 = t)); [|exact IH].
    rewrite !fmap_cons. cbn [mt_total h snd]. by apply Permutation_skip.
  - unfold G. rewrite fsum_groups by (apply NoDup_filter, NoDup_unique).
    do 2 f_equal. apply filter_ext_elem_of. intros p Hp.
    rewrite list_elem_of_filter. unfold uks. rewrite elem_of_unique, list_elem_of_fmap.
    cbn [snd]. split; [tauto|]. intros Ht. split; [done|]. eauto.
Qed.
End MonthlyTotals.

(** C5, as amended.  Where the arithmetic is exact, for every reading
    type the monthly totals of that type, added over all the months of
    the data, equal the sum of that type's daily usage over the whole
    span.  (In binary64 the two sums are taken in different orders and
    agree only up to rounding.) *)
Theorem monthly_totals_add_up `{ExactArith F} `{SortValues}
    (df : list (Reading F)) (t : string) :
  ∃ pts, daily_usage_data df = Ok pts ∧
    usage_of t (monthly_total pts) = fsum (dp_usage <$> points_of_type t pts).
Proof.
  eexists. split; [apply daily_usage_data_Ok|]. apply usage_of_monthly_total.
Qed.

Lemma monthly_totals_add_up_witness :
  let df := [mkReading (days_from_civil 2024 1 1) "anytime" (of_int 1000 : Qc) "bill";
             mkReading (days_from_civil 2024 2 4) "anytime" (of_int 1100 : Qc) "bill"] in
  ∃ pts, daily_usage_data df = Ok pts ∧
    usage_of "anytime" (monthly_total pts) = fsum (dp_usage <$> points_of_type "anytime" pts).
Proof.
  intros df. exact (monthly_totals_add_up (H0 := exact_laws) df "anytime").
Defined.

(** C5 as stated fails in binary64: for the readings 1000 on 2024-01-01
    and 1100 on 2024-02-04 the January and February totals add up to
    99.99999999999994 while the 34 daily values add up to
    99.99999999999993; with compensated sums the two are
    100.00000000000001 and 100. *)
Lemma monthly_totals_inexact_in_binary64 :
  let df := [mkReading (days_from_civil 2024 1 1) "anytime" (float_of_Z 1000) "bill";
             mkReading (days_from_civil 2024 2 4) "anytime" (float_of_Z 1100) "bill"] in
  ∃ pts, daily_usage_data df = Ok pts ∧
    mt_month <$> monthly_total pts = [(2024, 1); (2024, 2)] ∧
    usage_of "anytime" (monthly_total pts)
    ≠ fsum (dp_usage <$> points_of_type "anytime" pts) ∧
    kahan_sum (mt_total <$> filter (λ r, mt_type r = "anytime")
                              (monthly_total_with kahan_sum pts))
    ≠ kahan_sum (dp_usage <$> points_of_type "anytime" pts).
Proof.
  intros df. eexists. split; [vm_compute; reflexivity|].
  split; [vm_compute; reflexivity|].
  split; vm_compute; intros Heq; discriminate Heq.
Qed.

(** ** Annual projection *)

Section AnnualFacts.
Context `{Arith F} `{SortValues}.
Implicit Types (df : list (Reading F)) (t : string).


Lemma foldl_min_le (d : Z) (ds : list Z) : foldl Z.min d ds ≤ d.
Proof.
  revert d. induction ds as [|x ds IH]; intros d; cbn; [lia|].
  specialize (IH (Z.min d x)). lia.
Qed.

Lemma foldl_max_ge (d : Z) (ds : list Z) : d ≤ foldl Z.max d ds.
Proof.
  revert d. induction ds as [|x ds IH]; intros d; cbn; [lia|].
  specialize (IH (Z.max d x)). lia.
Qed.

(** The span of the data is never negative. *)
Lemma days_in_data_nonneg df n : days_in_data df = Some n → 0 ≤ n.
Proof.
  unfold days_in_data, date_max, date_min.
  destruct (r_date <$> df) as [|d ds]; cbn; [done|]. intros [= <-].
  pose proof (foldl_min_le d ds). pose proof (foldl_max_ge d ds). lia.
Qed.

(** The loop raises nothing when the span is not zero, and leaves in
    the dict the projection of each visited type that has two readings
    or more. *)
Lemma annual_usage_loop_Ok df (n : Z) (types : list string) (m : gmap string F) :
  n ≠ 0 →
  ∃ m', annual_usage_loop df n types m = Ok m' ∧
    ∀ t, m' !! t
         = if decide (t ∈ types ∧ (2 ≤ length (type_df df t))%nat)
           then Some (spec_annual_projection df n t) else m !! t.
Proof.
  intros Hn. revert m. induction types as [|t0 types IH]; intros m.
  - exists m. split; [done|]. intros t.
    rewrite decide_False; [done|]. intros [?%elem_of_nil _]. done.
  - cbn [annual_usage_loop].
    destruct (decide (2 ≤ length (type_df df t0))%nat) as [Hlen|Hlen].
    + destruct (head (type_df df t0)) as [first_row|] eqn:Hh.
      2:{ apply head_None in Hh. rewrite Hh in Hlen. cbn in Hlen. lia. }
      destruct (last (type_df df t0)) as [last_row|] eqn:Hl.
      2:{ apply last_None in Hl. rewrite Hl in Hlen. cbn in Hlen. lia. }
      cbn. unfold true_div. rewrite decide_False by done. cbn.
      destruct (IH (<[t0 := fmul (fdiv (fsub (r_value last_row) (r_value first_row))
                                       (of_int n)) (of_int 365)]> m))
        as (m' & Hloop & Hm').
      exists m'. split; [exact Hloop|]. intros t. rewrite Hm'.
      destruct (decide (t = t0)) as [->|Hne].
      * rewrite lookup_insert_eq.
        rewrite (decide_True (P := t0 ∈ t0 :: types ∧ _)) by (split; [left|done]).
        unfold spec_annual_projection. rewrite Hh, Hl.
        rewrite (decide_True (P := (2 ≤ length (type_df df t0))%nat)) by done.
        by case_decide.
      * rewrite lookup_insert_ne by done.
        apply decide_ext. rewrite elem_of_cons. tauto.
    + destruct (IH m) as (m' & Hloop & Hm').
      exists m'. split; [exact Hloop|]. intros t. rewrite Hm'.
      apply decide_ext. rewrite elem_of_cons. split; [tauto|].
      intros [[->|Hin] Ht]; [done|tauto].
Qed.

Lemma spec_annual_projection_short df n t :
  (length (type_df df t) < 2)%nat → spec_annual_projection df n t = fzero.
Proof.
  intros Hlen. unfold spec_annual_projection.
  destruct (head (type_df df t)), (last (type_df df t)); try done.
  by rewrite decide_False by lia.
Qed.

Lemma get_usage_loop df n (m' : gmap string F) :
  (∀ t, m' !! t
        = if decide (t ∈ unique (r_type <$> df) ∧ (2 ≤ length (type_df df t))%nat)
          then Some (spec_annual_projection df n t) else (∅ : gmap string F) !! t) →
  ∀ t, get_usage m' t = spec_annual_projection df n t.
Proof.
  intros Hm' t. unfold get_usage. rewrite Hm'.
  destruct (decide _) as [|Hno]; [done|]. rewrite lookup_empty. cbn.
  symmetry. apply spec_annual_projection_short.
  destruct (decide (t ∈ unique (r_type <$> df))) as [Hin|Hout].
  - apply Nat.lt_nge. intros Hge. by apply Hno.
  - rewrite type_df_absent by done. cbn. lia.
Qed.

(** What [calculate_annual_costs] returns. *)
Lemma calculate_annual_costs_Ok df (r1 r2 r3 r4 r5 : F) (n : Z) :
  days_in_data df = Some n → n ≠ 0 →
  calculate_annual_costs df r1 r2 r3 r4 r5
  = Ok (Some
      (let anytime_usage := spec_annual_projection df n "anytime" in
       let cl_usage := spec_annual_projection df n "controlled load" in
       let solar_usage := spec_annual_projection df n "solar" in
       let anytime_cost := fmul anytime_usage (fdiv r1 (of_int 100)) in
       let cl_cost := fmul cl_usage (fdiv r2 (of_int 100)) in
       let solar_credit := fmul solar_usage (fdiv r3 (of_int 100)) in
       let supply_cost := fmul (fadd r4 r5) (of_int 365) in
       mkAnnual anytime_usage cl_usage solar_usage anytime_cost cl_cost solar_credit
         supply_cost (fsub (fadd (fadd anytime_cost cl_cost) supply_cost) solar_credit)
         (Some n))).
Proof.
  intros Hdays Hn. unfold calculate_annual_costs. rewrite Hdays.
  rewrite decide_False by congruence.
  destruct (annual_usage_loop_Ok df n (unique (r_type <$> df)) ∅ Hn) as (m' & -> & Hm').
  cbn. rewrite !(get_usage_loop df n m' Hm'). done.
Qed.

Lemma calculate_annual_costs_total df (r1 r2 r3 r4 r5 : F) :
  ∃ res, calculate_annual_costs df r1 r2 r3 r4 r5 = Ok res.
Proof.
  destruct (days_in_data df) as [n|] eqn:Hdays.
  - destruct (decide (n = 0)) as [->|Hn].
    + unfold calculate_annual_costs. rewrite Hdays, decide_True by done. by eexists.
    + rewrite (calculate_annual_costs_Ok df _ _ _ _ _ n) by done. by eexists.
  - unfold calculate_annual_costs. rewrite Hdays, decide_False by done. by eexists.
Qed.
End AnnualFacts.


(** ** Cost calculator *)

(** The scenario of the specification: 300 kWh of anytime usage over 30
    days under the default plan. *)
Example spec_cost_calculator_scenario :
  spec_cost_calculator (float_of_Z 300) fzero fzero default_plan 30
  = mkCosts 75%float 0%float 0%float 51%float 126%float.
Proof. reflexivity. Qed.

(** In exact arithmetic the conversion may as well be applied to the
    product; in binary64 the two differ by a rounding. *)
Lemma rate_conversion_exact (usage rate : Qc) :
  fmul usage (fdiv rate (of_int 100)) = fdiv (fmul usage rate) (of_int 100).
Proof. cbn. unfold Qcdiv. ring. Qed.

Lemma rate_conversion_binary64 :
  fmul (float_of_Z 3) (fdiv (float_of_Z 10) (of_int 100))
  ≠ fdiv (fmul (float_of_Z 3) (float_of_Z 10)) (of_int 100).
Proof. vm_compute. intros Heq. discriminate Heq. Qed.

Section CostFacts.
Context `{Arith F} `{SortValues}.

(** The monthly loop finds a day count for each of its months. *)
Lemma monthly_costs_Ok (current_plan : TariffPlan F) (rows : list (MonthlyRow F)) :
  ∃ costs, monthly_costs current_plan rows = Ok costs ∧
           costs.*1 = unique (mt_month <$> rows).
Proof.
  unfold monthly_costs.
  assert (∀ months : list (Z * Z),
            (∀ m, m ∈ months → m ∈ mt_month <$> rows) →
            ∃ costs, mapM (monthly_cost current_plan rows) months = Ok costs ∧
                     costs.*1 = months) as Hall.
  { induction months as [|m months IH]; intros Hin; [by exists []|].
    destruct IH as (costs & Hcosts & Hfst); [intros m' Hm'; apply Hin; by right|].
    assert (∃ c, monthly_cost current_plan rows m = Ok (m, c)) as [c Hc].
    { unfold monthly_cost.
      destruct (filter (λ r, mt_month r = m) rows) as [|r rs] eqn:Hf.
      - exfalso. assert (m ∈ mt_month <$> rows) as Hm by (apply Hin; left).
        apply list_elem_of_fmap in Hm as (r & -> & Hr).
        by apply (filter_nil_not_elem_of _ _ r Hf).
      - cbn. by eexists. }
    exists ((m, c) :: costs). cbn. rewrite Hc. cbn. rewrite Hcosts. cbn.
    by rewrite Hfst. }
  apply Hall. intros m. by rewrite elem_of_unique.
Qed.
End CostFacts.

(** C2.  Both places where the script costs usage compute the Cost
    Calculator's figures: the annual estimate with the (edited) rates as
    the plan and a day count of 365, returning all five figures; the
    monthly annotation with the loaded plan and the month's day count,
    returning the total. *)
Theorem costs_follow_the_calculator `{Arith F} `{SortValues} :
  (∀ (df : list (Reading F)) (r1 r2 r3 r4 r5 : F) (ac : AnnualCosts F),
     calculate_annual_costs df r1 r2 r3 r4 r5 = Ok (Some ac) →
     let costs := spec_cost_calculator (ac_anytime_usage ac) (ac_cl_usage ac)
                    (ac_solar_usage ac) (mkPlan r1 r2 r3 r4 r5) 365 in
     ac_anytime_cost ac = cb_anytime_cost costs ∧
     ac_cl_cost ac = cb_controlled_load_cost costs ∧
     ac_solar_credit ac = cb_solar_credit costs ∧
     ac_supply_cost ac = cb_supply_cost costs ∧
     ac_total_cost ac = cb_total_cost costs) ∧
  (∀ (current_plan : TariffPlan F) (rows : list (MonthlyRow F)) (month : Z * Z)
     (days_in_month : Z),
     let month_data := filter (λ r, mt_month r = month) rows in
     iloc0 (mt_days <$> month_data) = Ok days_in_month →
     monthly_cost current_plan rows month
     = Ok (month,
           cb_total_cost
             (spec_cost_calculator (usage_of "anytime" month_data)
                (usage_of "controlled load" month_data) (usage_of "solar" month_data)
                current_plan days_in_month))).
Proof.
  split.
  - intros df r1 r2 r3 r4 r5 ac. unfold calculate_annual_costs.
    destruct (decide (days_in_data df = Some 0)); [done|].
    destruct (match days_in_data df with Some n => _ | None => _ end) as [m|e]; [|done].
    cbn. intros [= <-]. done.
  - intros current_plan rows month days_in_month month_data Hdays.
    unfold monthly_cost. fold month_data. rewrite Hdays. done.
Qed.

Lemma costs_follow_the_calculator_witness :
  let df := [mkReading (days_from_civil 2024 1 1) "anytime" (float_of_Z 1000) "bill";
             mkReading (days_from_civil 2024 1 31) "anytime" (float_of_Z 1300) "bill"] in
  let rows := [mkMonthlyRow (2024, 1) "anytime" (float_of_Z 300) 30] in
  monthly_cost default_plan rows (2024, 1) = Ok ((2024, 1), 126%float) ∧
  ∃ ac, calculate_annual_costs df 25%float 18%float 8%float 1%float 0%float = Ok (Some ac) ∧
        ac_anytime_usage ac = 3650%float ∧
        ac_anytime_cost ac = 912.5%float ∧
        ac_supply_cost ac = 365%float ∧
        ac_total_cost ac = 1277.5%float.
Proof.
  intros df rows. split.
  - rewrite (proj2 costs_follow_the_calculator default_plan rows (2024, 1) 30 eq_refl).
    reflexivity.
  - eexists. split; [vm_compute; reflexivity|].
    match goal with
    | |- ac_anytime_usage ?ac = _ ∧ _ =>
        assert (calculate_annual_costs df 25%float 18%float 8%float 1%float 0%float
                = Ok (Some ac)) as Hcalc by (vm_compute; reflexivity);
        destruct (proj1 costs_follow_the_calculator df 25%float 18%float 8%float
                        1%float 0%float ac Hcalc) as (Ha & _ & _ & Hs & Ht)
    end.
    split; [reflexivity|]. rewrite Ha, Hs, Ht. repeat split; reflexivity.
Defined.

(** ** Cleaning a reading cell *)





Lemma first_char_rstrip (s : string) (c : ascii) :
  first_char s = Some c → is_space c = false → first_char (rstrip s) = Some c.
Proof.
  destruct s as [|c' s]; [done|]. cbn. intros [= ->] Hc.
  destruct (rstrip s); [by rewrite Hc|done].
Qed.







(** Text left after cleaning that is not a float literal: a blank inside
    the number, letters, an empty cell. *)
Example parse_reading_rejects :
  parse_reading "66 444" = Raise ValueError ∧
  parse_reading " 12abc " = Raise ValueError ∧
  parse_reading " , " = Raise ValueError.
Proof. done. Qed.

Example parse_reading_accepts :
  parse_reading "1,234,567.5" = Ok 1234567.5%float ∧
  parse_reading (String (ascii_of_nat 9) "7e2") = Ok 700%float.
Proof. done. Qed.

(** ** Loading a file *)





(** One malformed date stops the load of an otherwise good file; a good
    file loads whole, sorted. *)
Example load_data_rejects :
  load_data [mkRaw "17/12/2024" "anytime" " 66,444 " (Some "bill");
             mkRaw "2024-12-18" "anytime" " 66,450 " None]
  = Raise ValueError.
Proof. reflexivity. Qed.

Example load_data_accepts :
  load_data [mkRaw "18/12/2024" "anytime" " 66,450 " None;
             mkRaw "17/12/2024" "anytime" " 66,444 " (Some "bill")]
  = Ok [mkReading 20074 "anytime" 66444%float "bill";
        mkReading 20075 "anytime" 66450%float "manual"].
Proof. reflexivity. Qed.

(** ** The session's tariff fields and the monthly costs *)

(** C10.  The monthly cost figures of a run are those of the loaded
    plan applied to the uploaded readings, and two runs that differ only
    in the values typed into the tariff fields have the same monthly
    cost figures (and stop with the same exception, if they stop). *)
Theorem monthly_costs_ignore_session `{SortValues}
    (config_file : option (TariffPlan float)) (uploaded_file : option (list RawRow))
    (session1 session2 : Session) :
  shown_monthly_costs (run config_file uploaded_file session1)
  = shown_monthly_costs (run config_file uploaded_file session2)
  ∧
  (∀ rows outputs,
     uploaded_file = Some rows →
     run config_file uploaded_file session1 = Ok (Some outputs) →
     ∃ df daily_usage,
       load_data rows = Ok df ∧
       daily_usage_data df = Ok daily_usage ∧
       (if decide (daily_usage = []) then Ok []
        else monthly_costs (load_current_plan config_file) (monthly_total daily_usage))
       = Ok (out_monthly_costs outputs)).
Proof.
  split.
  - unfold shown_monthly_costs, run. destruct uploaded_file as [rows|]; [|done].
    destruct (load_data rows) as [df|e]; [|done]. cbn.
    destruct (decide (df = [])); [done|]. cbn.
    rewrite daily_usage_data_Ok. cbn.
    destruct (if decide _ then _ else _) as [costs|e]; [|done]. cbn.
    repeat match goal with
    | |- context [calculate_annual_costs ?df ?a ?b ?c ?d ?e] =>
        let res := fresh "res" in
        destruct (calculate_annual_costs_total df a b c d e) as [res ->]; cbn
    end.
    done.
  - intros rows outputs -> Hrun. unfold run in Hrun.
    destruct (load_data rows) as [df|e]; [|done]. cbn in Hrun.
    destruct (decide (df = [])); [done|]. cbn in Hrun.
    rewrite daily_usage_data_Ok in Hrun. cbn in Hrun.
    exists df. eexists. split; [done|]. split; [apply daily_usage_data_Ok|].
    destruct (if decide _ then _ else _) as [costs|e]; [|done]. cbn in Hrun.
    repeat match type of Hrun with
    | context [calculate_annual_costs ?df ?a ?b ?c ?d ?e] =>
        let res := fresh "res" in
        destruct (calculate_annual_costs_total df a b c d e) as [res Hres];
        rewrite Hres in Hrun; clear Hres; cbn in Hrun
    end.
    by injection Hrun as <-.
Qed.

Lemma monthly_costs_ignore_session_witness :
  let rows := [mkRaw "01/01/2024" "anytime" "1,000" (Some "bill");
               mkRaw "31/01/2024" "anytime" "1,300" None] in
  let untouched := mkSession None None None None None None None None None None in
  let edited := mkSession (Some 40%float) None None (Some 2%float) None
                          (Some 10%float) None None None None in
  shown_monthly_costs (run None (Some rows) untouched)
  = shown_monthly_costs (run None (Some rows) edited) ∧
  shown_monthly_costs (run None (Some rows) edited)
  = Ok (Some [((2024, 1), 126%float)]) ∧
  shown_current_calc (run None (Some rows) untouched)
  ≠ shown_current_calc (run None (Some rows) edited).
Proof.
  intros rows untouched edited.
  split; [exact (proj1 (monthly_costs_ignore_session None (Some rows) untouched edited))|].
  split; [vm_compute; reflexivity|].
  vm_compute. intros Heq. discriminate Heq.
Defined.

(* ================================================================== *)
(** * Further properties *)

(** ** Rows in another order, rows of another type *)

Lemma NoDup_fmap_eq {A B} (f : A → B) (l : list A) (x y : A) :
  NoDup (f <$> l) → x ∈ l → y ∈ l → f x = f y → x = y.
Proof.
  induction l as [|a l IH]; [by intros _ ?%elem_of_nil|].
  rewrite fmap_cons, NoDup_cons, !elem_of_cons.
  intros [Hnotin Hnd] [->|Hx] [->|Hy] Heq; [done| | |by apply IH].
  - exfalso. apply Hnotin. rewrite Heq. apply list_elem_of_fmap. eauto.
  - exfalso. apply Hnotin. rewrite <- Heq. apply list_elem_of_fmap. eauto.
Qed.

(** Rows with pairwise different keys have one sorted arrangement. *)
Lemma sorted_arrangement_unique {A} (key : A → Z) (l1 l2 : list A) :
  Sorted (key_le key) l1 → Sorted (key_le key) l2 → l1 ≡ₚ l2 →
  NoDup (key <$> l1) → l1 = l2.
Proof.
  intros Hs1 Hs2 Hperm Hnd.
  apply (Sorted_unique_strong (key_le key)); [|done..].
  intros x1 x2 Hx1 Hx2 H12 H21. unfold key_le in *.
  apply (NoDup_fmap_eq key l1); [done|done|by rewrite Hperm|lia].
Qed.

Lemma select_type_perm {F} (t : string) (df1 df2 : list (Reading F)) :
  df1 ≡ₚ df2 → select_type t df1 ≡ₚ select_type t df2.
Proof. intros Hperm. unfold select_type. by rewrite Hperm. Qed.

(** X1.  When no two readings of a type share a date, the rows of that
    type in date order, and with them the type's daily points, are the
    same whatever the order of the rows in the file and whatever sort
    is used. *)
Theorem points_do_not_depend_on_row_order `{Arith F} (sort1 sort2 : SortValues)
    (df1 df2 : list (Reading F)) (t : string) :
  df1 ≡ₚ df2 →
  NoDup (r_date <$> select_type t df1) →
  type_df (H := sort1) df1 t = type_df (H := sort2) df2 t ∧
  ∃ pts1 pts2,
    daily_usage_data (H0 := sort1) df1 = Ok pts1 ∧
    daily_usage_data (H0 := sort2) df2 = Ok pts2 ∧
    points_of_type t pts1 = points_of_type t pts2.
Proof.
  intros Hperm Hnd.
  assert (type_df (H := sort1) df1 t = type_df (H := sort2) df2 t) as Heq.
  { apply (sorted_arrangement_unique r_date).
    - apply (type_df_sorted (H0 := sort1)).
    - apply (type_df_sorted (H0 := sort2)).
    - rewrite (type_df_perm (H0 := sort1)), (type_df_perm (H0 := sort2)).
      by apply select_type_perm.
    - by rewrite (type_df_perm (H0 := sort1)). }
  split; [exact Heq|].
  eexists _, _. split; [apply daily_usage_data_Ok|]. split; [apply daily_usage_data_Ok|].
  rewrite (points_of_type_daily (H0 := sort1) df1 t _ (daily_usage_data_Ok df1)).
  rewrite (points_of_type_daily (H0 := sort2) df2 t _ (daily_usage_data_Ok df2)).
  by rewrite Heq.
Qed.

Lemma points_do_not_depend_on_row_order_witness :
  let a := mkReading (days_from_civil 2024 1 1) "anytime" (float_of_Z 1000) "bill" in
  let b := mkReading (days_from_civil 2024 1 31) "anytime" (float_of_Z 1300) "bill" in
  let s := mkReading (days_from_civil 2024 1 31) "solar" (float_of_Z 7) "manual" in
  ∃ pts1 pts2,
    daily_usage_data [a; s; b] = Ok pts1 ∧ daily_usage_data [b; a; s] = Ok pts2 ∧
    points_of_type "anytime" pts1 = points_of_type "anytime" pts2.
Proof.
  intros a b s.
  destruct (points_do_not_depend_on_row_order merge_sort_values merge_sort_values
              [a; s; b] [b; a; s] "anytime") as (_ & pts1 & pts2 & H1 & H2 & Heq).
  - symmetry. apply (Permutation_cons_append [a; s] b).
  - apply (@bool_decide_unpack _ (NoDup_dec _)). vm_compute. exact I.
  - by exists pts1, pts2.
Defined.

(** X2.  The daily points of a type are made from the rows of that type
    alone: two files with the same rows of a type, in the same order,
    give that type the same points, whatever other rows they hold. *)
Theorem other_types_do_not_interfere `{Arith F} `{SortValues}
    (df1 df2 : list (Reading F)) (t : string) :
  select_type t df1 = select_type t df2 →
  ∃ pts1 pts2,
    daily_usage_data df1 = Ok pts1 ∧ daily_usage_data df2 = Ok pts2 ∧
    points_of_type t pts1 = points_of_type t pts2.
Proof.
  intros Hsel.
  eexists _, _. split; [apply daily_usage_data_Ok|]. split; [apply daily_usage_data_Ok|].
  rewrite (points_of_type_daily df1 t _ (daily_usage_data_Ok df1)).
  rewrite (points_of_type_daily df2 t _ (daily_usage_data_Ok df2)).
  unfold type_df. by rewrite Hsel.
Qed.

Lemma other_types_do_not_interfere_witness :
  let a := mkReading (days_from_civil 2024 1 1) "anytime" (float_of_Z 1000) "bill" in
  let b := mkReading (days_from_civil 2024 1 31) "anytime" (float_of_Z 1300) "bill" in
  let s1 := mkReading (days_from_civil 2023 12 1) "solar" (float_of_Z 7) "manual" in
  let s2 := mkReading (days_from_civil 2024 3 1) "solar" (float_of_Z 70) "manual" in
  ∃ pts1 pts2,
    daily_usage_data [a; b] = Ok pts1 ∧ daily_usage_data [s1; a; s2; b] = Ok pts2 ∧
    points_of_type "anytime" pts1 = points_of_type "anytime" pts2.
Proof.
  intros a b s1 s2.
  exact (other_types_do_not_interfere [a; b] [s1; a; s2; b] "anytime" eq_refl).
Defined.

(** ** Usage statistics *)

Lemma type_df_nonempty_ends `{SortValues} {F} (df : list (Reading F)) (t : string) :
  type_df df t ≠ [] →
  ∃ first_row last_row, head (type_df df t) = Some first_row ∧
                        last (type_df df t) = Some last_row.
Proof.
  intros Hne. destruct (head (type_df df t)) as [a|] eqn:Hh.
  - destruct (last (type_df df t)) as [b|] eqn:Hl; [eauto|].
    by apply last_None in Hl.
  - by apply head_None in Hh.
Qed.

(** X3.  The "Total Days" shown for a type is the number of days from
    the date of its first reading to the date of its last. *)
Theorem total_days_is_span_of_type `{Arith F} `{SortValues}
    (df : list (Reading F)) (t : string) (first_row last_row : Reading F) :
  head (type_df df t) = Some first_row →
  last (type_df df t) = Some last_row →
  ∃ pts, daily_usage_data df = Ok pts ∧
         total_days t pts = r_date last_row - r_date first_row.
Proof.
  intros Hh Hl. eexists. split; [apply daily_usage_data_Ok|].
  unfold total_days.
  rewrite (points_of_type_daily df t _ (daily_usage_data_Ok df)).
  destruct (interpolate_dates t _ first_row last_row (type_df_sorted df t) Hh Hl)
    as [Hle Hdates].
  rewrite <- (length_fmap dp_date), Hdates, length_seqZ. lia.
Qed.

Lemma total_days_is_span_of_type_witness :
  let df := [mkReading (days_from_civil 2024 3 1) "solar" (float_of_Z 90) "bill";
             mkReading (days_from_civil 2024 2 1) "solar" (float_of_Z 10) "bill"] in
  ∃ pts, daily_usage_data df = Ok pts ∧ total_days "solar" pts = 29.
Proof.
  intros df.
  exact (total_days_is_span_of_type df "solar"
           (mkReading (days_from_civil 2024 2 1) "solar" (float_of_Z 10) "bill")
           (mkReading (days_from_civil 2024 3 1) "solar" (float_of_Z 90) "bill")
           eq_refl eq_refl).
Defined.

(** X4.  A type gets a statistics panel exactly when its readings span
    at least one day: a type with a single reading, or with all its
    readings on one date, has none. *)
Theorem statistics_shown_iff_span_positive `{Arith F} `{SortValues}
    (df : list (Reading F)) (t : string) :
  ∃ pts, daily_usage_data df = Ok pts ∧
    (t ∈ trend_types pts ↔
     ∃ first_row last_row,
       head (type_df df t) = Some first_row ∧ last (type_df df t) = Some last_row ∧
       r_date first_row < r_date last_row).
Proof.
  eexists. split; [apply daily_usage_data_Ok|].
  set (pts := mjoin _).
  assert (t ∈ trend_types pts ↔ interpolate t (type_df df t) ≠ []) as ->.
  { rewrite <- (points_of_type_daily df t pts (daily_usage_data_Ok df)).
    unfold trend_types, points_of_type. rewrite elem_of_unique, list_elem_of_fmap. split.
    - intros (p & -> & Hp) Hnil. by apply (filter_nil_not_elem_of _ _ p Hnil).
    - intros Hne. destruct (filter _ pts) as [|p ps] eqn:Hf; [done|].
      assert (p ∈ filter (λ p, dp_type p = t) pts) as Hp by (rewrite Hf; left).
      apply list_elem_of_filter in Hp as [Hp1 Hp2]. eauto. }
  split.
  - intros Hne.
    destruct (type_df_nonempty_ends df t) as (first_row & last_row & Hh & Hl).
    { intros Hnil. by rewrite Hnil in Hne. }
    exists first_row, last_row. split; [done|]. split; [done|].
    destruct (interpolate_dates t _ first_row last_row (type_df_sorted df t) Hh Hl)
      as [Hle Hdates].
    destruct (decide (r_date first_row < r_date last_row)); [done|].
    rewrite seqZ_nil in Hdates by lia. by apply fmap_nil_inv in Hdates.
  - intros (first_row & last_row & Hh & Hl & Hlt) Hnil.
    destruct (interpolate_dates t _ first_row last_row (type_df_sorted df t) Hh Hl)
      as [_ Hdates].
    rewrite Hnil, seqZ_cons in Hdates by lia. done.
Qed.

(** ** Conservation from the meter to the monthly totals *)

Lemma Sorted_NoDup_lt {A} (key : A → Z) (a b : A) (l : list A) :
  Sorted (key_le key) (a :: b :: l) → NoDup (key <$> a :: b :: l) → key a < key b.
Proof.
  intros [Hab _]%Sorted_cons_cons_inv Hnd. unfold key_le in Hab.
  rewrite !fmap_cons, NoDup_cons, elem_of_cons in Hnd.
  destruct Hnd as [Hnotin _]. destruct (decide (key a = key b)); [tauto|lia].
Qed.

(** In exact arithmetic the intervals between readings with different
    dates telescope. *)
Lemma interpolate_total_exact (t : string) (rows : list (Reading Qc))
    (first_row last_row : Reading Qc) :
  Sorted (key_le r_date) rows → NoDup (r_date <$> rows) →
  head rows = Some first_row → last rows = Some last_row →
  fsum (dp_usage <$> interpolate t rows) = fsub (r_value last_row) (r_value first_row).
Proof.
  revert first_row. induction rows as [|a rest IH]; intros first_row Hs Hnd Hh Hl; [done|].
  injection Hh as <-. destruct rest as [|b rest'].
  - injection Hl as <-. cbn. unfold Qcminus. by rewrite Qcplus_opp_r.
  - pose proof (Sorted_NoDup_lt r_date a b rest' Hs Hnd) as Hlt.
    apply Sorted_cons_cons_inv in Hs as [_ Hs].
    rewrite fmap_cons in Hnd. apply NoDup_cons in Hnd as [_ Hnd].
    rewrite interpolate_cons_cons, fmap_app, fsum_app, span_points_usage.
    rewrite (IH b Hs Hnd eq_refl Hl).
    unfold interval_avg. rewrite decide_True by lia.
    rewrite fsum_even_shares by lia. cbn. ring.
Qed.

(** X5.  In exact arithmetic, for a type whose readings all have
    different dates, the daily usage of the type adds up to its last
    reading minus its first, so do its monthly totals, and the average
    daily usage shown is that difference divided by the days between
    the two readings. *)
Theorem usage_adds_up_to_meter_delta `{SortValues}
    (df : list (Reading Qc)) (t : string) (first_row last_row : Reading Qc) :
  NoDup (r_date <$> select_type t df) →
  head (type_df df t) = Some first_row →
  last (type_df df t) = Some last_row →
  ∃ pts, daily_usage_data df = Ok pts ∧
    fsum (dp_usage <$> points_of_type t pts)
    = fsub (r_value last_row) (r_value first_row) ∧
    usage_of t (monthly_total pts) = fsub (r_value last_row) (r_value first_row) ∧
    average_daily_usage t pts
    = fdiv (fsub (r_value last_row) (r_value first_row))
           (of_int (r_date last_row - r_date first_row)).
Proof.
  intros Hnd Hh Hl. eexists. split; [apply daily_usage_data_Ok|].
  set (pts := mjoin _).
  assert (fsum (dp_usage <$> points_of_type t pts)
          = fsub (r_value last_row) (r_value first_row)) as Hsum.
  { rewrite (points_of_type_daily df t pts (daily_usage_data_Ok df)).
    apply interpolate_total_exact; [apply type_df_sorted| |done|done].
    by rewrite type_df_perm. }
  split; [exact Hsum|]. split.
  - by rewrite usage_of_monthly_total.
  - unfold average_daily_usage. rewrite Hsum. do 2 f_equal.
    rewrite (points_of_type_daily df t pts (daily_usage_data_Ok df)).
    destruct (interpolate_dates t _ first_row last_row (type_df_sorted df t) Hh Hl)
      as [Hle Hdates].
    rewrite <- (length_fmap dp_date), Hdates, length_seqZ. lia.
Qed.

Lemma usage_adds_up_to_meter_delta_witness :
  let a := mkReading (days_from_civil 2024 1 1) "anytime" (of_int 1000 : Qc) "bill" in
  let b := mkReading (days_from_civil 2024 1 20) "anytime" (of_int 1090 : Qc) "manual" in
  let c := mkReading (days_from_civil 2024 2 4) "anytime" (of_int 1100 : Qc) "bill" in
  ∃ pts, daily_usage_data [c; a; b] = Ok pts ∧
    fsum (dp_usage <$> points_of_type "anytime" pts) = of_int 100 ∧
    usage_of "anytime" (monthly_total pts) = of_int 100 ∧
    average_daily_usage "anytime" pts = fdiv (of_int 100) (of_int 34).
Proof.
  intros a b c.
  destruct (usage_adds_up_to_meter_delta [c; a; b] "anytime" a c)
    as (pts & Hpts & Hsum & Hmonths & Havg).
  - apply (@bool_decide_unpack _ (NoDup_dec _)). vm_compute. exact I.
  - reflexivity.
  - reflexivity.
  - exists pts. split; [exact Hpts|].
    assert (fsub (r_value c) (r_value a) = (of_int 100 : Qc)) as Hdelta
      by (apply Qc_is_canon; reflexivity).
    rewrite Hsum, Hmonths, Havg, Hdelta. done.
Defined.

(** ** Readings that decrease *)

Lemma Qc_of_int_pos (n : Z) : 0 < n → (0 < of_int n)%Qc.
Proof.
  intros Hn. unfold Qclt.
  change (0 < Qred (inject_Z n))%Q.
  apply (Qlt_le_trans _ (inject_Z n)); [|rewrite Qred_correct; apply Qle_refl].
  unfold Qlt. simpl. lia.
Qed.

Lemma Qcdiv_neg_pos (x y : Qc) : (x < 0)%Qc → (0 < y)%Qc → (x / y < 0)%Qc.
Proof.
  intros Hx Hy. unfold Qcdiv.
  assert (0 < / y)%Qc as Hinv.
  { unfold Qclt in *. change (0 < Qred (/ y))%Q.
    apply (Qlt_le_trans _ (/ y)%Q); [|rewrite Qred_correct; apply Qle_refl].
    by apply Qinv_lt_0_compat. }
  pose proof (Qcmult_lt_compat_r x 0 (/ y) Hinv Hx) as Hlt.
  by rewrite Qcmult_0_l in Hlt.
Qed.

(** X6.  Usage is not clamped at zero: when a reading is lower than the
    one before it (in exact arithmetic), every day between the two gets
    a negative usage. *)
Theorem decreasing_readings_give_negative_usage `{SortValues}
    (df : list (Reading Qc)) (t : string) (before after : list (Reading Qc))
    (r1 r2 : Reading Qc) :
  type_df df t = before ++ r1 :: r2 :: after →
  r_date r1 < r_date r2 →
  (r_value r2 < r_value r1)%Qc →
  ∃ pts, daily_usage_data df = Ok pts ∧
    length (points_in_span t (r_date r1) (r_date r2) pts)
    = Z.to_nat (r_date r2 - r_date r1) ∧
    ∀ p, p ∈ points_in_span t (r_date r1) (r_date r2) pts → (dp_usage p < 0)%Qc.
Proof.
  intros Hdf Hlt Hdec. eexists. split; [apply daily_usage_data_Ok|].
  rewrite (points_in_span_interval df t before r1 r2 after _
             (daily_usage_data_Ok df) Hdf Hlt).
  split; [apply span_points_length|].
  intros p Hp. apply elem_of_span_points in Hp as (day & _ & ->). cbn.
  apply Qcdiv_neg_pos; [|apply Qc_of_int_pos; lia].
  apply Qclt_minus_iff. apply Qclt_minus_iff in Hdec.
  replace (0 + - (r_value r2 - r_value r1))%Qc with (r_value r1 + - r_value r2)%Qc by ring.
  done.
Qed.

Lemma decreasing_readings_give_negative_usage_witness :
  let a := mkReading (days_from_civil 2024 1 1) "anytime" (of_int 99000 : Qc) "bill" in
  let b := mkReading (days_from_civil 2024 1 11) "anytime" (of_int 50 : Qc) "manual" in
  ∃ pts, daily_usage_data [a; b] = Ok pts ∧
    length (points_in_span "anytime" (r_date a) (r_date b) pts) = 10%nat ∧
    ∀ p, p ∈ points_in_span "anytime" (r_date a) (r_date b) pts → (dp_usage p < 0)%Qc.
Proof.
  intros a b.
  exact (decreasing_readings_give_negative_usage [a; b] "anytime" [] [] a b
           eq_refl eq_refl eq_refl).
Defined.

(** ** The rows of the monthly table *)

Local Arguments year_month : simpl never.
Local Arguments month_start : simpl never.

Section MonthlyRows.
Context `{Arith F} `{SortValues}.
Implicit Types (pts : list (DailyUsagePoint F)).

(** A row of the monthly table is a group: a month and type that some
    point has, with the group's sum and the month's count of dates. *)
Lemma elem_of_monthly_total_with (agg : list F → F) pts (r : MonthlyRow F) :
  r ∈ monthly_total_with agg pts ↔
  (∃ p, p ∈ pts ∧ year_month (dp_date p) = mt_month r ∧ dp_type p = mt_type r) ∧
  mt_total r
  = agg (dp_usage <$>
         filter (λ p, (year_month (dp_date p), dp_type p) = (mt_month r, mt_type r)) pts) ∧
  mt_days r
  = nunique (dp_date <$> filter (λ p, year_month (dp_date p) = mt_month r) pts).
Proof.
  rewrite monthly_total_with_rows, list_elem_of_fmap.
  setoid_rewrite sort_values_perm. unfold groupby_month_type.
  setoid_rewrite list_elem_of_fmap. setoid_rewrite merge_sort_Permutation.
  setoid_rewrite elem_of_unique. setoid_rewrite list_elem_of_fmap.
  split.
  - intros (row & -> & k & -> & p & -> & Hp). cbn. split; [|done]. eauto.
  - intros ((p & Hp & Hm & Ht) & Htot & Hdays).
    exists ((mt_month r, mt_type r), mt_total r). cbn. split.
    + destruct r as [m t tot days]. cbn in *. by rewrite Hdays.
    + exists (mt_month r, mt_type r). split; [by rewrite Htot|].
      exists p. split; [by rewrite Hm, Ht|done].
Qed.

Lemma monthly_total_with_keys (agg : list F → F) pts :
  (λ r, (mt_month r, mt_type r)) <$> monthly_total_with agg pts
  ≡ₚ unique ((λ p, (year_month (dp_date p), dp_type p)) <$> pts).
Proof.
  rewrite monthly_total_with_rows, <- list_fmap_compose.
  rewrite (sort_values_perm _ (groupby_month_type agg pts)).
  unfold groupby_month_type. rewrite <- list_fmap_compose.
  rewrite <- (merge_sort_Permutation month_type_le (unique _)) at 2.
  generalize (merge_sort month_type_le
                (unique ((λ p, (year_month (dp_date p), dp_type p)) <$> pts))).
  intros ks. induction ks as [|[m t] ks IH]; [done|]. cbn. by rewrite IH.
Qed.

Lemma monthly_total_with_sorted (agg : list F → F) pts :
  Sorted (key_le (λ r, month_start (mt_month r))) (monthly_total_with agg pts).
Proof.
  rewrite monthly_total_with_rows.
  eapply Sorted_fmap; [|apply sort_values_sorted]. intros x y Hxy. exact Hxy.
Qed.
End MonthlyRows.

Lemma nunique_pos `{EqDecision A} (l : list A) (x : A) : x ∈ l → 1 ≤ nunique l.
Proof.
  intros Hx. unfold nunique. apply elem_of_unique in Hx.
  destruct (unique l); [by apply elem_of_nil in Hx|]. cbn. lia.
Qed.

(** X7.  The monthly table has exactly one row for each month and type
    that has a daily point, and no other row; its rows are in ascending
    order of month. *)
Theorem monthly_table_has_one_row_per_group `{Arith F} `{SortValues}
    (pts : list (DailyUsagePoint F)) :
  NoDup ((λ r, (mt_month r, mt_type r)) <$> monthly_total pts) ∧
  (∀ m t, (m, t) ∈ (λ r, (mt_month r, mt_type r)) <$> monthly_total pts ↔
          ∃ p, p ∈ pts ∧ year_month (dp_date p) = m ∧ dp_type p = t) ∧
  Sorted (key_le (λ r, month_start (mt_month r))) (monthly_total pts).
Proof.
  unfold monthly_total. split; [|split].
  - rewrite monthly_total_with_keys. apply NoDup_unique.
  - intros m t. rewrite monthly_total_with_keys, elem_of_unique, list_elem_of_fmap.
    split.
    + intros (p & [= -> ->] & Hp). eauto.
    + intros (p & Hp & <- & <-). eauto.
  - apply monthly_total_with_sorted.
Qed.

(** X8.  Every row of the monthly table carries as its day count the
    number of different dates that have a point in the row's month, of
    any type (not the calendar length of the month, and not the days
    of the row's own type): the count is at least 1, and the rows of
    one month carry the same count. *)
Theorem monthly_row_counts_the_dates_of_its_month `{Arith F} `{SortValues}
    (pts : list (DailyUsagePoint F)) (r : MonthlyRow F) :
  r ∈ monthly_total pts →
  mt_days r = nunique (dp_date <$> filter (λ p, year_month (dp_date p) = mt_month r) pts) ∧
  1 ≤ mt_days r ∧
  ∀ r', r' ∈ monthly_total pts → mt_month r' = mt_month r → mt_days r' = mt_days r.
Proof.
  intros Hr. apply elem_of_monthly_total_with in Hr as ((p & Hp & Hm & Ht) & Htot & Hdays).
  split; [exact Hdays|]. split.
  - rewrite Hdays. apply (nunique_pos _ (dp_date p)).
    apply list_elem_of_fmap. exists p. split; [done|]. by apply list_elem_of_filter.
  - intros r' Hr' Hmonth.
    apply elem_of_monthly_total_with in Hr' as (_ & _ & Hdays').
    by rewrite Hdays, Hdays', Hmonth.
Qed.

Lemma monthly_row_counts_the_dates_of_its_month_witness :
  let pts := [mkPoint (days_from_civil 2024 1 30) "anytime" (float_of_Z 2);
              mkPoint (days_from_civil 2024 1 31) "anytime" (float_of_Z 3);
              mkPoint (days_from_civil 2024 1 29) "solar" (float_of_Z 1);
              mkPoint (days_from_civil 2024 1 30) "solar" (float_of_Z 1)] in
  let r := mkMonthlyRow (2024, 1) "anytime" (float_of_Z 5) 3 in
  r ∈ monthly_total pts ∧
  length (points_of_type "anytime" pts) = 2%nat ∧
  mt_days r = nunique (dp_date <$> filter (λ p, year_month (dp_date p) = mt_month r) pts).
Proof.
  intros pts r.
  assert (r ∈ monthly_total pts) as Hr by (vm_compute; left).
  split; [exact Hr|]. split; [reflexivity|].
  exact (proj1 (monthly_row_counts_the_dates_of_its_month pts r Hr)).
Defined.

(** ** The list of monthly costs *)

Lemma StronglySorted_filter {A} (R : relation A) (P : A → Prop) `{∀ x, Decision (P x)}
    (l : list A) :
  StronglySorted R l → StronglySorted R (filter P l).
Proof.
  induction 1 as [|x l Hs IH Hall]; [constructor|].
  rewrite filter_cons. destruct (decide (P x)); [|done].
  constructor; [done|]. rewrite Forall_forall in *.
  intros y Hy. apply Hall. by apply list_elem_of_filter in Hy as [_ Hy].
Qed.

Lemma StronglySorted_unique_list {A} `{EqDecision A} (R : relation A) (l : list A) :
  StronglySorted R l → StronglySorted R (unique l).
Proof.
  induction 1 as [|x l Hs IH Hall]; [constructor|]. cbn.
  constructor; [by apply StronglySorted_filter|].
  rewrite Forall_forall in *. intros y Hy.
  apply list_elem_of_filter in Hy as [_ Hy]. apply Hall. by apply elem_of_unique.
Qed.

(** X9.  The monthly cost loop never fails: it returns one cost for
    each month that has a daily point, each month once, in ascending
    order of month. *)
Theorem monthly_costs_one_per_month `{Arith F} `{SortValues}
    (current_plan : TariffPlan F) (pts : list (DailyUsagePoint F)) :
  ∃ costs, monthly_costs current_plan (monthly_total pts) = Ok costs ∧
    NoDup costs.*1 ∧
    (∀ m, m ∈ costs.*1 ↔ ∃ p, p ∈ pts ∧ year_month (dp_date p) = m) ∧
    StronglySorted (key_le month_start) costs.*1.
Proof.
  destruct (monthly_costs_Ok current_plan (monthly_total pts)) as (costs & Hcosts & Hfst).
  exists costs. split; [exact Hcosts|]. rewrite Hfst.
  split; [apply NoDup_unique|]. split.
  - intros m. rewrite elem_of_unique, list_elem_of_fmap. split.
    + intros (r & -> & Hr).
      apply elem_of_monthly_total_with in Hr as ((p & Hp & Hm & _) & _). eauto.
    + intros (p & Hp & <-).
      assert ((year_month (dp_date p), dp_type p)
              ∈ (λ r, (mt_month r, mt_type r)) <$> monthly_total pts) as Hin.
      { unfold monthly_total. rewrite monthly_total_with_keys, elem_of_unique.
        apply list_elem_of_fmap. eauto. }
      apply list_elem_of_fmap in Hin as (r & [= Hm _] & Hr). eauto.
  - apply StronglySorted_unique_list.
    apply (StronglySorted_fmap mt_month (key_le (λ r, month_start (mt_month r)))).
    + intros x y Hxy. exact Hxy.
    + apply Sorted_StronglySorted; [apply _|]. apply monthly_total_with_sorted.
Qed.

(** ** When there is an annual estimate *)

Lemma foldl_min_spec (d : Z) (ds : list Z) :
  foldl Z.min d ds ∈ d :: ds ∧ ∀ x, x ∈ d :: ds → foldl Z.min d ds ≤ x.
Proof.
  revert d. induction ds as [|y ds IH]; intros d; cbn.
  - split; [left|]. intros x ->%list_elem_of_singleton. lia.
  - destruct (IH (Z.min d y)) as [Hin Hle]. split.
    + apply elem_of_cons in Hin as [Heq|Hin]; [|by do 2 right].
      rewrite Heq. destruct (Z.min_spec d y) as [[_ ->]|[_ ->]]; [left|right; left].
    + intros x Hx. rewrite !elem_of_cons in Hx.
      pose proof (Hle (Z.min d y) ltac:(left)) as Hm.
      destruct Hx as [->|[->|Hx]]; [lia|lia|]. apply Hle. by right.
Qed.

Lemma foldl_max_spec (d : Z) (ds : list Z) :
  foldl Z.max d ds ∈ d :: ds ∧ ∀ x, x ∈ d :: ds → x ≤ foldl Z.max d ds.
Proof.
  revert d. induction ds as [|y ds IH]; intros d; cbn.
  - split; [left|]. intros x ->%list_elem_of_singleton. lia.
  - destruct (IH (Z.max d y)) as [Hin Hle]. split.
    + apply elem_of_cons in Hin as [Heq|Hin]; [|by do 2 right].
      rewrite Heq. destruct (Z.max_spec d y) as [[_ ->]|[_ ->]]; [right; left|left].
    + intros x Hx. rewrite !elem_of_cons in Hx.
      pose proof (Hle (Z.max d y) ltac:(left)) as Hm.
      destruct Hx as [->|[->|Hx]]; [lia|lia|]. apply Hle. by right.
Qed.

Lemma days_in_data_zero_iff {F} (df : list (Reading F)) :
  days_in_data df = Some 0 ↔
  df ≠ [] ∧ ∀ a b, a ∈ df → b ∈ df → r_date a = r_date b.
Proof.
  unfold days_in_data, date_max, date_min.
  destruct df as [|r df]; [by split; [|intros [? _]]|].
  rewrite fmap_cons. cbn [mbind option_bind].
  destruct (foldl_min_spec (r_date r) (r_date <$> df)) as [Hmin_in Hmin].
  destruct (foldl_max_spec (r_date r) (r_date <$> df)) as [Hmax_in Hmax].
  rewrite <- fmap_cons in *. split.
  - intros [= Hzero]. split; [done|]. intros a b Ha Hb.
    assert (r_date a ∈ r_date <$> r :: df) as Ha' by (apply list_elem_of_fmap; eauto).
    assert (r_date b ∈ r_date <$> r :: df) as Hb' by (apply list_elem_of_fmap; eauto).
    pose proof (Hmin _ Ha'). pose proof (Hmax _ Ha').
    pose proof (Hmin _ Hb'). pose proof (Hmax _ Hb'). lia.
  - intros [_ Hsame]. f_equal.
    apply list_elem_of_fmap in Hmin_in as (a & -> & Ha).
    apply list_elem_of_fmap in Hmax_in as (b & -> & Hb).
    rewrite (Hsame a b Ha Hb). lia.
Qed.

Lemma calculate_annual_costs_None_iff `{Arith F} `{SortValues}
    (df : list (Reading F)) (r1 r2 r3 r4 r5 : F) :
  calculate_annual_costs df r1 r2 r3 r4 r5 = Ok None ↔ days_in_data df = Some 0.
Proof.
  unfold calculate_annual_costs.
  destruct (decide (days_in_data df = Some 0)) as [Hz|Hnz]; [done|].
  split; [|done].
  destruct (match days_in_data df with Some n => _ | None => _ end); cbn; done.
Qed.

(** X10.  The annual estimate is withheld ([None]) exactly when the
    file has readings and all of them, of every type, carry the same
    date. *)
Theorem no_annual_estimate_iff_single_date `{Arith F} `{SortValues}
    (df : list (Reading F)) (r1 r2 r3 r4 r5 : F) :
  calculate_annual_costs df r1 r2 r3 r4 r5 = Ok None ↔
  df ≠ [] ∧ ∀ a b, a ∈ df → b ∈ df → r_date a = r_date b.
Proof. by rewrite calculate_annual_costs_None_iff, days_in_data_zero_iff. Qed.

(** X11.  The estimates for two sets of rates are withheld together;
    when they are given, both report the same usage figures and the
    same number of days of data, which is positive for a file with
    readings.  (So the comparison plan's figures exist whenever the
    current plan's do.) *)
Theorem annual_estimates_agree_on_usage `{Arith F} `{SortValues}
    (df : list (Reading F)) (r1 r2 r3 r4 r5 r1' r2' r3' r4' r5' : F) :
  (calculate_annual_costs df r1 r2 r3 r4 r5 = Ok None ∧
   calculate_annual_costs df r1' r2' r3' r4' r5' = Ok None)
  ∨
  (∃ ac ac',
     calculate_annual_costs df r1 r2 r3 r4 r5 = Ok (Some ac) ∧
     calculate_annual_costs df r1' r2' r3' r4' r5' = Ok (Some ac') ∧
     ac_anytime_usage ac = ac_anytime_usage ac' ∧
     ac_cl_usage ac = ac_cl_usage ac' ∧
     ac_solar_usage ac = ac_solar_usage ac' ∧
     ac_days_in_data ac = ac_days_in_data ac' ∧
     ac_days_in_data ac = days_in_data df ∧
     ∀ n, ac_days_in_data ac = Some n → 0 < n).
Proof.
  destruct (days_in_data df) as [n|] eqn:Hdays.
  - destruct (decide (n = 0)) as [->|Hn].
    + left. by rewrite !calculate_annual_costs_None_iff.
    + right. eexists _, _.
      split; [by apply calculate_annual_costs_Ok|].
      split; [by apply calculate_annual_costs_Ok|]. cbn.
      repeat split. intros n' [= <-].
      pose proof (days_in_data_nonneg df n Hdays). lia.
  - right. unfold calculate_annual_costs. rewrite Hdays.
    rewrite decide_False by done. cbn. eexists _, _.
    repeat split. intros n' Hn'. discriminate Hn'.
Qed.

(** ** Past the loader *)



(** ** The readings chart *)

(** Grouping a list by a key and joining the groups gives the list back,
    rearranged. *)
Lemma join_groups_perm {A K} `{EqDecision K} (key : A → K) (ks : list K) (l : list A) :
  NoDup ks → (∀ x, x ∈ l → key x ∈ ks) →
  mjoin ((λ k, filter (λ x, key x = k) l) <$> ks) ≡ₚ l.
Proof.
  intros Hnd. revert l. induction Hnd as [|k ks Hnotin Hnd IH]; intros l Hl.
  - destruct l as [|x l]; [done|].
    assert (key x ∈ []) as Hx by (apply Hl; left). by apply elem_of_nil in Hx.
  - change (filter (λ x, key x = k) l ++ mjoin ((λ k, filter (λ x, key x = k) l) <$> ks) ≡ₚ l).
    assert ((λ k', filter (λ x, key x = k') l) <$> ks
            = (λ k', filter (λ x, key x = k') (filter (λ x, ¬ key x = k) l)) <$> ks) as ->.
    { apply Forall_fmap_ext, Forall_forall. intros k' Hk'.
      rewrite list_filter_filter. apply list_filter_iff. intros x.
      split; [|tauto]. intros <-. split; [done|].
      intros Heq. apply Hnotin. by rewrite <- Heq. }
    rewrite IH.
    + apply filter_app_complement.
    + intros x [Hne Hx]%list_elem_of_filter.
      apply Hl in Hx. apply elem_of_cons in Hx as [?|?]; [done|done].
Qed.

Lemma trace_markers_type_df {F} (t : string) (rows : list (Reading F)) :
  (∀ r, r ∈ rows → r_type r = t) →
  trace_markers (mkTrace t (r_date <$> rows) (r_value <$> rows)
                         ((λ r, symbol_of (r_source r)) <$> rows))
  = marker_of <$> rows.
Proof.
  unfold trace_markers. cbn. induction rows as [|r rows IH]; intros Ht; [done|].
  cbn. rewrite IH by (intros r' Hr'; apply Ht; by right).
  unfold marker_of at 2. by rewrite (Ht r) by left.
Qed.

Lemma elem_of_type_df `{SortValues} {F} (df : list (Reading F)) (t : string) (r : Reading F) :
  r ∈ type_df df t ↔ r ∈ df ∧ r_type r = t.
Proof.
  unfold type_df. rewrite sort_values_perm. unfold select_type.
  rewrite list_elem_of_filter. tauto.
Qed.

(** X13.  The readings chart has one trace per reading type, named
    after it; the dates of a trace ascend and its readings and symbols
    match them in number; and between them the traces draw every reading
    of the file exactly once, as a triangle when its source is a bill and
    as a circle otherwise. *)
Theorem readings_chart_draws_each_reading_once `{SortValues} {F} (df : list (Reading F)) :
  tr_name <$> readings_traces df = unique (r_type <$> df) ∧
  NoDup (tr_name <$> readings_traces df) ∧
  (∀ tr, tr ∈ readings_traces df →
     Sorted Z.le (tr_x tr) ∧
     length (tr_y tr) = length (tr_x tr) ∧
     length (tr_symbols tr) = length (tr_x tr)) ∧
  mjoin (trace_markers <$> readings_traces df) ≡ₚ marker_of <$> df.
Proof.
  assert (tr_name <$> readings_traces df = unique (r_type <$> df)) as Hnames.
  { unfold readings_traces. rewrite <- list_fmap_compose. apply list_fmap_id. }
  split; [exact Hnames|]. split; [rewrite Hnames; apply NoDup_unique|]. split.
  - intros tr Htr. unfold readings_traces in Htr.
    apply list_elem_of_fmap in Htr as (t & -> & _). cbn.
    rewrite !length_fmap. split; [|done].
    apply (Sorted_fmap r_date (key_le r_date)); [|apply sort_values_sorted].
    intros x y Hxy. exact Hxy.
  - transitivity (marker_of <$> mjoin ((λ t, select_type t df) <$> unique (r_type <$> df))).
    + unfold readings_traces. rewrite <- list_fmap_compose.
      generalize (unique (r_type <$> df)). intros ts.
      induction ts as [|t ts IH]; [done|].
      change (trace_markers
                (mkTrace t (r_date <$> type_df df t) (r_value <$> type_df df t)
                   ((λ r, symbol_of (r_source r)) <$> type_df df t))
              ++ mjoin (((trace_markers
                          ∘ (λ reading_type,
                               let type_data := type_df df reading_type in
                               let symbols := (λ r, symbol_of (r_source r)) <$> type_data in
                               mkTrace reading_type (r_date <$> type_data)
                                 (r_value <$> type_data) symbols)) <$> ts))
              ≡ₚ marker_of <$> (select_type t df
                                ++ mjoin ((λ t, select_type t df) <$> ts))).
      rewrite fmap_app, IH.
      rewrite trace_markers_type_df by (intros r Hr; by apply elem_of_type_df in Hr as [_ ?]).
      unfold type_df at 1. by rewrite (sort_values_perm r_date (select_type t df)).
    + apply fmap_Permutation. unfold select_type.
      apply (join_groups_perm r_type); [apply NoDup_unique|].
      intros r Hr. apply elem_of_unique, list_elem_of_fmap. eauto.
Qed.

(** ** Commas and blanks in a reading cell *)

Local Arguments is_space : simpl never.












(** ** Whole numbers with thousands separators *)

Local Arguments digit_of : simpl never.
Local Arguments N.mul : simpl never.
Local Arguments N.add : simpl never.
Local Arguments Z.add : simpl never.










